(** * Verification of the room store of planning-poker-web (src/roomStore.ts)

    Shallow embedding of the room table and of its Mutation API
    ([createRoom], [joinRoom], [leaveRoom], [updateParticipantProfile],
    [submitVote], [revealVotes], [resetVotes], [removeParticipant],
    [transferHost]), of [resolveDeck], [generateRoomId], the startup
    sanitization [loadRooms], of [parseCustomDeck] and [handleCreateRoom]
    from App.tsx, and of the vote summary of RoomView.

    JavaScript strings are lists of UTF-16 code units.  A plain object used
    as a dictionary is the list of its own properties in creation order;
    reading a property or testing it with [in] also sees the properties
    inherited from [Object.prototype], exactly as the code does. *)

From Stdlib Require Import ZArith List String Ascii Bool Lia Sorting Permutation.
Import ListNotations.
Open Scope Z_scope.

(** ** Strings *)

(** A JavaScript string: its UTF-16 code units. *)
Definition jsstr := list Z.

(** An ASCII literal as a JavaScript string. *)
Definition js (s : string) : jsstr :=
  map (fun a => Z.of_nat (nat_of_ascii a)) (list_ascii_of_string s).

Definition jsstr_eqb (a b : jsstr) : bool := if list_eq_dec Z.eq_dec a b then true else false.

(** The code units matched by [\s] and removed by [String.prototype.trim]:
    WhiteSpace and LineTerminator of ECMA-262. *)
Definition is_ws (c : Z) : bool :=
  (c =? 9) || (c =? 10) || (c =? 11) || (c =? 12) || (c =? 13) || (c =? 32)
  || (c =? 160) || (c =? 5760) || ((8192 <=? c) && (c <=? 8202))
  || (c =? 8232) || (c =? 8233) || (c =? 8239) || (c =? 8287)
  || (c =? 12288) || (c =? 65279).

Fixpoint trim_start (s : jsstr) : jsstr :=
  match s with
  | c :: t => if is_ws c then trim_start t else s
  | [] => []
  end.

(** [String.prototype.trim]. *)
Definition trim (s : jsstr) : jsstr := rev (trim_start (rev (trim_start s))).

(** [String.prototype.slice(b, e)] for non-negative [b] and [e]. *)
Definition slice (b e : nat) (s : jsstr) : jsstr := firstn (e - b) (skipn b s).

(** [String.prototype.slice(-n)]. *)
Definition slice_last (n : nat) (s : jsstr) : jsstr := skipn (List.length s - n) s.

(** [String.prototype.toUpperCase] on the ASCII range, which covers every
    code unit of a base-36 rendering ([0-9], [a-z], [.] and [-]). *)
Definition to_upper (s : jsstr) : jsstr :=
  map (fun c => if (97 <=? c) && (c <=? 122) then c - 32 else c) s.

(** ** Plain objects used as dictionaries *)

(** The own enumerable properties of an object, in creation order. *)
Definition obj (A : Type) := list (jsstr * A).

Fixpoint own_get {A} (k : jsstr) (o : obj A) : option A :=
  match o with
  | [] => None
  | (k', v) :: t => if jsstr_eqb k k' then Some v else own_get k t
  end.

Definition own_has {A} (k : jsstr) (o : obj A) : bool :=
  match own_get k o with Some _ => true | None => false end.

Fixpoint own_update {A} (k : jsstr) (v : A) (o : obj A) : obj A :=
  match o with
  | [] => []
  | (k', v') :: t => if jsstr_eqb k k' then (k', v) :: t else (k', v') :: own_update k v t
  end.

(** The property names [Object.prototype] provides to every plain object. *)
Definition object_prototype_keys : list jsstr :=
  map js ["constructor"; "__defineGetter__"; "__defineSetter__"; "hasOwnProperty";
          "__lookupGetter__"; "__lookupSetter__"; "isPrototypeOf";
          "propertyIsEnumerable"; "toString"; "valueOf"; "__proto__";
          "toLocaleString"]%string.

(** What an inherited property holds: an object or function (the built-ins),
    or the boolean [true] that [revealVotes('__proto__')] stores as
    [Object.prototype.revealed]. *)
Inductive inherited := IObj | ITrue.

(** [polluted] records whether [Object.prototype.revealed] has been set. *)
Definition proto_lookup (polluted : bool) (k : jsstr) : option inherited :=
  if existsb (jsstr_eqb k) object_prototype_keys then Some IObj
  else if polluted && jsstr_eqb k (js "revealed") then Some ITrue
  else None.

(** The value read by [o[k]]. *)
Inductive lookup (A : Type) := LOwn (a : A) | LInh (i : inherited) | LUndef.
Arguments LOwn {A} a.
Arguments LInh {A} i.
Arguments LUndef {A}.

Definition js_get {A} (polluted : bool) (k : jsstr) (o : obj A) : lookup A :=
  match own_get k o with
  | Some v => LOwn v
  | None => match proto_lookup polluted k with Some i => LInh i | None => LUndef end
  end.

(** [k in o]. *)
Definition js_in {A} (polluted : bool) (k : jsstr) (o : obj A) : bool :=
  match js_get polluted k o with LUndef => false | _ => true end.

(** [o[k] = v]: an own property is overwritten in place; assigning to an
    absent ["__proto__"] runs the inherited setter, which replaces the
    prototype and creates no own property (the prototype itself is dropped
    by the next JSON deep copy); any other name is appended. *)
Definition js_set {A} (k : jsstr) (v : A) (o : obj A) : obj A :=
  if own_has k o then own_update k v o
  else if jsstr_eqb k (js "__proto__") then o
  else o ++ [(k, v)].

(** [delete o[k]]. *)
Definition js_delete {A} (k : jsstr) (o : obj A) : obj A :=
  filter (fun kv => negb (jsstr_eqb k (fst kv))) o.

(** Array indices: canonical decimal numerals below 2^32 - 1. *)
Fixpoint decimal_value (acc : Z) (s : jsstr) : option Z :=
  match s with
  | [] => Some acc
  | c :: t => if (48 <=? c) && (c <=? 57) then decimal_value (10 * acc + (c - 48)) t else None
  end.

Definition array_index (k : jsstr) : option Z :=
  match k with
  | [] => None
  | c :: t =>
      if (c =? 48) && negb (Nat.eqb (List.length t) 0) then None
      else match decimal_value 0 k with
           | Some n => if n <? 4294967295 then Some n else None
           | None => None
           end
  end.

Fixpoint insert_index (k : jsstr) (n : Z) (l : list (jsstr * Z)) : list (jsstr * Z) :=
  match l with
  | [] => [(k, n)]
  | (k', n') :: t => if n <=? n' then (k, n) :: l else (k', n') :: insert_index k n t
  end.

Fixpoint index_keys {A} (o : obj A) : list (jsstr * Z) :=
  match o with
  | [] => []
  | (k, _) :: t =>
      match array_index k with
      | Some n => insert_index k n (index_keys t)
      | None => index_keys t
      end
  end.

(** [Object.keys(o)]: array indices in ascending numeric order, then the
    other names in creation order. *)
Definition js_keys {A} (o : obj A) : list jsstr :=
  map fst (index_keys o)
  ++ map fst (filter (fun kv => match array_index (fst kv) with Some _ => false | None => true end) o).

(** ** Data model (roomStore.ts) *)

Inductive DeckType := Fibonacci | Numeric | Custom.

(** [ParticipantProfile], as the callers pass it. *)
Record ParticipantProfile := mkProfile {
  prof_id : jsstr;
  prof_name : jsstr;
  prof_avatarColor : jsstr;
  prof_joinedAt : Z
}.

(** A participant record as stored in [room.participants]; a field the
    object does not have is [None] ([undefined]). *)
Record participant := mkParticipant {
  p_id : option jsstr;
  p_name : option jsstr;
  p_avatarColor : option jsstr;
  p_joinedAt : option Z
}.

(** [RoomState]; a vote is [Some value] or [None] ([null]). *)
Record RoomState := mkRoom {
  r_id : jsstr;
  r_name : jsstr;
  r_deckType : DeckType;
  r_deckValues : list jsstr;
  r_hostId : jsstr;
  r_participants : obj participant;
  r_votes : obj (option jsstr);
  r_revealed : bool;
  r_createdAt : Z
}.

(** The module state: the table [rooms] and whether [Object.prototype]
    has acquired the property [revealed]. *)
Record store := mkStore {
  rooms : obj RoomState;
  proto_revealed : bool
}.

Definition empty_store : store := mkStore [] false.

Definition with_participants (r : RoomState) (ps : obj participant) : RoomState :=
  mkRoom (r_id r) (r_name r) (r_deckType r) (r_deckValues r) (r_hostId r) ps
         (r_votes r) (r_revealed r) (r_createdAt r).

Definition with_votes (r : RoomState) (vs : obj (option jsstr)) : RoomState :=
  mkRoom (r_id r) (r_name r) (r_deckType r) (r_deckValues r) (r_hostId r)
         (r_participants r) vs (r_revealed r) (r_createdAt r).

Definition with_hostId (r : RoomState) (h : jsstr) : RoomState :=
  mkRoom (r_id r) (r_name r) (r_deckType r) (r_deckValues r) h
         (r_participants r) (r_votes r) (r_revealed r) (r_createdAt r).

Definition with_revealed (r : RoomState) (b : bool) : RoomState :=
  mkRoom (r_id r) (r_name r) (r_deckType r) (r_deckValues r) (r_hostId r)
         (r_participants r) (r_votes r) b (r_createdAt r).

(** Outcome of a call: a value, or a thrown [TypeError]. *)
Inductive res (A : Type) := Ok (a : A) | Throw.
Arguments Ok {A} a.
Arguments Throw {A}.

(** A mutator works on the draft table and may write to [Object.prototype]. *)
Definition mutator := obj RoomState -> bool -> res (obj RoomState * bool).

(** [updateRooms]: the draft is a JSON deep copy of [rooms], which keeps
    every own property, its value and the [Object.keys] order, so it is the
    table itself here; the draft is committed only when the mutator returns
    (a throw propagates and leaves [rooms] as it was).  [persist],
    [broadcast] and [emit] do not change the table; a storage error of
    [localStorage.setItem] in [persist] is not modelled. *)
Definition updateRooms (m : mutator) (s : store) : res store :=
  match m (rooms s) (proto_revealed s) with
  | Ok (draft, pol) => Ok (mkStore draft pol)
  | Throw => Throw
  end.

(** ** Decks and room ids *)

Definition PRESET_fibonacci : list jsstr :=
  map js ["0"; "1"; "2"; "3"; "5"; "8"; "13"; "21"; "34"; "55"; "89"; "?"]%string ++ [[9749]].

Definition PRESET_numeric : list jsstr :=
  map js ["0"; "1"; "2"; "3"; "4"; "5"; "6"; "7"; "8"; "9"; "10"; "?"]%string ++ [[9749]].

Definition resolveDeck (deckType : DeckType) (customDeck : option (list jsstr)) : list jsstr :=
  match deckType with
  | Custom =>
      let deck := filter (fun v => negb (Nat.eqb (List.length v) 0))
                         (map trim (match customDeck with Some l => l | None => [] end)) in
      if Nat.ltb 0 (List.length deck) then deck else [js "?"]
  | Fibonacci => PRESET_fibonacci
  | Numeric => PRESET_numeric
  end.

Definition digit36 (d : Z) : Z := if d <? 10 then 48 + d else 87 + d.

Fixpoint digits36 (fuel : nat) (n : Z) (acc : jsstr) : jsstr :=
  match fuel with
  | O => acc
  | S f =>
      let acc' := digit36 (n mod 36) :: acc in
      if n <? 36 then acc' else digits36 f (n / 36) acc'
  end.

(** [Number.prototype.toString(36)] on an integer (the fuel is the bit
    length, an upper bound on the number of base-36 digits). *)
Definition to_base36 (n : Z) : jsstr :=
  let fuel := S (Z.to_nat (Z.log2 (Z.abs n))) in
  if n <? 0 then js "-" ++ digits36 fuel (- n) [] else digits36 fuel n [].

(** [generateRoomId]: [rnd36] is [Math.random().toString(36)] and [now] is
    [Date.now()]. *)
Definition generateRoomId (rnd36 : jsstr) (now : Z) : jsstr :=
  to_upper (slice 2 6 rnd36) ++ js "-" ++ to_upper (slice_last 4 (to_base36 now)).

Definition room_name_placeholder : jsstr := js "Sala sem nome".

Record CreateRoomOptions := mkCreateRoomOptions {
  opt_name : jsstr;
  opt_deckType : DeckType;
  opt_customDeck : option (list jsstr);
  opt_host : ParticipantProfile
}.

(** The values [createRoom] reads from its environment. *)
Record create_env := mkCreateEnv {
  env_random36 : jsstr;   (** [Math.random().toString(36)] *)
  env_now_id : Z;         (** [Date.now()] inside [generateRoomId] *)
  env_now : Z             (** [Date.now()] for [createdAt] *)
}.

Definition new_room (id : jsstr) (options : CreateRoomOptions) (createdAt : Z) : RoomState :=
  let host := opt_host options in
  let p := mkParticipant (Some (prof_id host)) (Some (prof_name host))
                         (Some (prof_avatarColor host)) (Some (prof_joinedAt host)) in
  mkRoom id
         (match trim (opt_name options) with [] => room_name_placeholder | t => t end)
         (opt_deckType options)
         (resolveDeck (opt_deckType options) (opt_customDeck options))
         (prof_id host)
         (* computed keys of an object literal always define own properties *)
         [(prof_id host, p)]
         [(prof_id host, None)]
         false
         createdAt.

Definition createRoom (options : CreateRoomOptions) (env : create_env) (s : store)
  : res (jsstr * store) :=
  let id := generateRoomId (env_random36 env) (env_now_id env) in
  let room := new_room id options (env_now env) in
  match updateRooms (fun draft pol => Ok (js_set id room draft, pol)) s with
  | Ok s' => Ok (id, s')
  | Throw => Throw
  end.

(** ** Mutation API *)

(** ['Sala não encontrada.'] *)
Definition room_not_found : jsstr := js "Sala n" ++ [227] ++ js "o encontrada.".

(** [JoinRoomResult]. *)
Inductive JoinRoomResult :=
  | JoinFailure (reason : jsstr)           (** [{ success: false, reason }] *)
  | JoinSuccess (room : lookup RoomState). (** [{ success: true, room: rooms[roomId] }] *)

Definition joinRoom_mutator (roomId : jsstr) (profile : ParticipantProfile) : mutator :=
  fun draft pol =>
    match js_get pol roomId draft with
    | LUndef => Ok (draft, pol)
    | LInh _ => Throw   (* [room.participants] is undefined *)
    | LOwn room =>
        let pid := prof_id profile in
        let old := match js_get pol pid (r_participants room) with
                   | LOwn p => p_joinedAt p
                   | _ => None   (* [?.joinedAt] of an inherited value is undefined *)
                   end in
        let p := mkParticipant (Some pid) (Some (prof_name profile))
                               (Some (prof_avatarColor profile))
                               (Some (match old with Some j => j | None => prof_joinedAt profile end)) in
        let room1 := with_participants room (js_set pid p (r_participants room)) in
        let room2 := if js_in pol pid (r_votes room1) then room1
                     else with_votes room1 (js_set pid None (r_votes room1)) in
        Ok (js_set roomId room2 draft, pol)
    end.

Definition joinRoom (roomId : jsstr) (profile : ParticipantProfile) (s : store)
  : res (JoinRoomResult * store) :=
  match js_get (proto_revealed s) roomId (rooms s) with
  | LUndef => Ok (JoinFailure room_not_found, s)
  | _ =>
      match updateRooms (joinRoom_mutator roomId profile) s with
      | Ok s' => Ok (JoinSuccess (js_get (proto_revealed s') roomId (rooms s')), s')
      | Throw => Throw
      end
  end.

Definition leaveRoom_mutator (roomId participantId : jsstr) : mutator :=
  fun draft pol =>
    match js_get pol roomId draft with
    | LUndef => Ok (draft, pol)
    | LInh _ => Throw   (* [delete room.participants[...]] on undefined *)
    | LOwn room =>
        let room1 := with_votes (with_participants room (js_delete participantId (r_participants room)))
                                (js_delete participantId (r_votes room)) in
        let remainingIds := js_keys (r_participants room1) in
        match remainingIds with
        | [] => Ok (js_delete roomId draft, pol)
        | first :: _ =>
            let room2 := if jsstr_eqb (r_hostId room1) participantId
                         then with_hostId room1 first else room1 in
            let room3 := if r_revealed room2 && Nat.eqb (List.length remainingIds) 0
                         then with_revealed room2 false else room2 in
            Ok (js_set roomId room3 draft, pol)
        end
    end.

Definition leaveRoom (roomId participantId : jsstr) (s : store) : res store :=
  match js_get (proto_revealed s) roomId (rooms s) with
  | LUndef => Ok s
  | _ => updateRooms (leaveRoom_mutator roomId participantId) s
  end.

(** [Partial<Omit<ParticipantProfile, 'id' | 'joinedAt'>>]: [None] when the
    key is absent, [Some v] when present ([v = None] for [undefined]). *)
Record ProfileUpdates := mkUpdates {
  upd_name : option (option jsstr);
  upd_avatarColor : option (option jsstr)
}.

(** [{ ...participant, ...updates }]. *)
Definition merge_updates (p : participant) (u : ProfileUpdates) : participant :=
  mkParticipant (p_id p)
                (match upd_name u with Some v => v | None => p_name p end)
                (match upd_avatarColor u with Some v => v | None => p_avatarColor p end)
                (p_joinedAt p).

(** The spread of an inherited function or of [true]: no data field. *)
Definition no_fields : participant := mkParticipant None None None None.

Definition updateParticipantProfile_mutator (roomId participantId : jsstr) (updates : ProfileUpdates) : mutator :=
  fun draft pol =>
    match js_get pol roomId draft with
    | LUndef => Ok (draft, pol)
    | LInh _ => Throw   (* [room.participants[participantId]] on undefined *)
    | LOwn room =>
        let base := match js_get pol participantId (r_participants room) with
                    | LUndef => None
                    | LOwn p => Some p
                    | LInh _ => Some no_fields
                    end in
        match base with
        | None => Ok (draft, pol)
        | Some p =>
            Ok (js_set roomId (with_participants room
                  (js_set participantId (merge_updates p updates) (r_participants room))) draft, pol)
        end
    end.

Definition updateParticipantProfile (roomId participantId : jsstr) (updates : ProfileUpdates) (s : store)
  : res store :=
  updateRooms (updateParticipantProfile_mutator roomId participantId updates) s.

Definition submitVote_mutator (roomId participantId : jsstr) (value : option jsstr) : mutator :=
  fun draft pol =>
    match js_get pol roomId draft with
    | LUndef => Ok (draft, pol)
    | LInh _ => Throw   (* [participantId in undefined] *)
    | LOwn room =>
        if negb (js_in pol participantId (r_participants room)) then Ok (draft, pol)
        else
          let room1 := with_votes room (js_set participantId value (r_votes room)) in
          let room2 := match value with None => with_revealed room1 false | Some _ => room1 end in
          Ok (js_set roomId room2 draft, pol)
    end.

Definition submitVote (roomId participantId : jsstr) (value : option jsstr) (s : store) : res store :=
  updateRooms (submitVote_mutator roomId participantId value) s.

Definition revealVotes_mutator (roomId : jsstr) : mutator :=
  fun draft pol =>
    match js_get pol roomId draft with
    | LUndef => Ok (draft, pol)
    (* [room.revealed = true] on a built-in: for ["__proto__"] that object is
       [Object.prototype] itself *)
    | LInh IObj => Ok (draft, pol || jsstr_eqb roomId (js "__proto__"))
    | LInh ITrue => Throw   (* property write on a primitive in strict mode *)
    | LOwn room => Ok (js_set roomId (with_revealed room true) draft, pol)
    end.

Definition revealVotes (roomId : jsstr) (s : store) : res store :=
  updateRooms (revealVotes_mutator roomId) s.

Definition resetVotes_mutator (roomId : jsstr) : mutator :=
  fun draft pol =>
    match js_get pol roomId draft with
    | LUndef => Ok (draft, pol)
    | LInh _ => Throw   (* [Object.keys(undefined)] *)
    | LOwn room =>
        let votes := map (fun kv => (fst kv, @None jsstr)) (r_votes room) in
        Ok (js_set roomId (with_revealed (with_votes room votes) false) draft, pol)
    end.

Definition resetVotes (roomId : jsstr) (s : store) : res store :=
  updateRooms (resetVotes_mutator roomId) s.

Definition removeParticipant (roomId participantId : jsstr) (s : store) : res store :=
  leaveRoom roomId participantId s.

Definition transferHost_mutator (roomId newHostId : jsstr) : mutator :=
  fun draft pol =>
    match js_get pol roomId draft with
    | LUndef => Ok (draft, pol)
    | LInh _ => Throw   (* [newHostId in undefined] *)
    | LOwn room =>
        if negb (js_in pol newHostId (r_participants room)) then Ok (draft, pol)
        else Ok (js_set roomId (with_hostId room newHostId) draft, pol)
    end.

Definition transferHost (roomId newHostId : jsstr) (s : store) : res store :=
  updateRooms (transferHost_mutator roomId newHostId) s.

(** ** Runs of the Mutation API *)

Inductive operation :=
  | OpCreateRoom (options : CreateRoomOptions) (env : create_env)
  | OpJoinRoom (roomId : jsstr) (profile : ParticipantProfile)
  | OpLeaveRoom (roomId participantId : jsstr)
  | OpUpdateParticipantProfile (roomId participantId : jsstr) (updates : ProfileUpdates)
  | OpSubmitVote (roomId participantId : jsstr) (value : option jsstr)
  | OpRevealVotes (roomId : jsstr)
  | OpResetVotes (roomId : jsstr)
  | OpRemoveParticipant (roomId participantId : jsstr)
  | OpTransferHost (roomId newHostId : jsstr).

Definition run_operation (o : operation) (s : store) : res store :=
  match o with
  | OpCreateRoom options env =>
      match createRoom options env s with Ok (_, s') => Ok s' | Throw => Throw end
  | OpJoinRoom roomId profile =>
      match joinRoom roomId profile s with Ok (_, s') => Ok s' | Throw => Throw end
  | OpLeaveRoom roomId pid => leaveRoom roomId pid s
  | OpUpdateParticipantProfile roomId pid u => updateParticipantProfile roomId pid u s
  | OpSubmitVote roomId pid v => submitVote roomId pid v s
  | OpRevealVotes roomId => revealVotes roomId s
  | OpResetVotes roomId => resetVotes roomId s
  | OpRemoveParticipant roomId pid => removeParticipant roomId pid s
  | OpTransferHost roomId h => transferHost roomId h s
  end.

(** The state after a call: a throwing call leaves the state as it was. *)
Definition state_after (o : operation) (s : store) : store :=
  match run_operation o s with Ok s' => s' | Throw => s end.

Definition run_all (ops : list operation) (s : store) : store :=
  fold_left (fun st o => state_after o st) ops s.

(** The states reachable from the empty table. *)
Inductive reachable : store -> Prop :=
  | reachable_empty : reachable empty_store
  | reachable_step : forall o s, reachable s -> reachable (state_after o s).

(** ** [parseCustomDeck] (App.tsx) *)

Definition is_deck_separator (c : Z) : bool := (c =? 44) || (c =? 10).

Fixpoint ws_prefix (s : jsstr) : nat :=
  match s with
  | c :: t => if is_ws c then S (ws_prefix t) else O
  | [] => O
  end.

(** Length of the match of [/\s*[,\n]\s*/] at the start of [s]: the greedy
    leading [\s*] backtracks until a [,] or a newline follows it, the
    trailing [\s*] takes every whitespace after the separator. *)
Fixpoint separator_match (s : jsstr) : option nat :=
  match s with
  | [] => None
  | c :: t =>
      match (if is_ws c then separator_match t else None) with
      | Some n => Some (S n)
      | None => if is_deck_separator c then Some (S (ws_prefix t)) else None
      end
  end.

(** [RegExp.prototype[@@split]] for that expression, which never matches
    the empty string: [piece] is the reversed text since the last match;
    each round consumes at least one code unit, so the length of the
    string bounds the rounds. *)
Fixpoint split_go (fuel : nat) (piece : jsstr) (s : jsstr) : list jsstr :=
  match fuel with
  | O => [rev piece ++ s]
  | S f =>
      match s with
      | [] => [rev piece]
      | c :: t =>
          match separator_match s with
          | Some n => rev piece :: split_go f [] (skipn n s)
          | None => split_go f (c :: piece) t
          end
      end
  end.

(** [input.split(/\s*[,\n]\s*/)]. *)
Definition split_deck_input (input : jsstr) : list jsstr :=
  split_go (S (List.length input)) [] input.

Definition parseCustomDeck (input : jsstr) : list jsstr :=
  filter (fun v => negb (Nat.eqb (List.length v) 0)) (map trim (split_deck_input input)).

(** ** Startup sanitization ([loadRooms]) *)

(** A value produced by [JSON.parse].  A number is held as its rendering
    [String(n)] (the shortest decimal that reads back as [n], in exponent
    form from 1e21 on: 0.5, 1e+21, -3, Infinity for an overflowing
    literal).  The code only converts a number to a string and tests its
    truthiness, and [String(n)] determines both. *)
#[warnings="-register-all"]
Inductive jsval :=
  | VNull
  | VBool (b : bool)
  | VNum (repr : jsstr)
  | VStr (s : jsstr)
  | VArr (elems : list jsval) (props : obj jsval)   (** elements, named properties *)
  | VObj (props : obj jsval).

Fixpoint join_comma (parts : list jsstr) : jsstr :=
  match parts with
  | [] => []
  | [p] => p
  | p :: t => p ++ js "," ++ join_comma t
  end.

Fixpoint map_opt {A B} (f : A -> option B) (l : list A) : option (list B) :=
  match l with
  | [] => Some []
  | a :: t =>
      match f a, map_opt f t with
      | Some b, Some bs => Some (b :: bs)
      | _, _ => None
      end
  end.

(** [String(value)]; [None] when it throws (an own non-callable [toString]
    leaves [valueOf], which returns the object itself: a TypeError). *)
Fixpoint js_String (v : jsval) : option jsstr :=
  match v with
  | VNull => Some (js "null")
  | VBool b => Some (if b then js "true" else js "false")
  | VNum repr => Some repr
  | VStr s => Some s
  | VObj ps => if own_has (js "toString") ps then None else Some (js "[object Object]")
  | VArr es ps =>
      if own_has (js "toString") ps then None
      else if own_has (js "join") ps then Some (js "[object Array]")
      else
        let fix elems (l : list jsval) : option (list jsstr) :=
          match l with
          | [] => Some []
          | e :: t =>
              match (match e with VNull => Some [] | _ => js_String e end), elems t with
              | Some x, Some xs => Some (x :: xs)
              | _, _ => None
              end
          end in
        match elems es with Some parts => Some (join_comma parts) | None => None end
  end.

Definition truthy (v : option jsval) : bool :=
  match v with
  | None | Some VNull => false
  | Some (VBool b) => b
  (* [0] and [-0] both render as 0; [NaN] is the other falsy number *)
  | Some (VNum repr) => negb (jsstr_eqb repr (js "0") || jsstr_eqb repr (js "NaN"))
  | Some (VStr s) => negb (Nat.eqb (List.length s) 0)
  | Some (VArr _ _) | Some (VObj _) => true
  end.

(** The body of the [forEach] on the named properties of one room. *)
Definition sanitize_props (ps : obj jsval) : option (obj jsval) :=
  let deck := match own_get (js "deckValues") ps with
              | Some (VArr es aps) =>
                  if own_has (js "map") aps then None
                  else match map_opt js_String es with
                       | Some l => Some (VArr (map VStr l) [])
                       | None => None
                       end
              | _ => Some (VArr [] [])
              end in
  match deck with
  | None => None
  | Some d =>
      let ps1 := js_set (js "deckValues") d ps in
      Some (js_set (js "revealed") (VBool (truthy (own_get (js "revealed") ps1))) ps1)
  end.

(** One room of [Object.values(parsed)]; [None] when the body throws
    (a property of [null] is read, or one of a primitive is assigned in
    strict mode). *)
Definition sanitize_room (v : jsval) : option jsval :=
  match v with
  | VObj ps => option_map VObj (sanitize_props ps)
  | VArr es ps => option_map (VArr es) (sanitize_props ps)
  | _ => None
  end.

(** The outcome of [localStorage.getItem] followed by [JSON.parse]. *)
Inductive stored_item :=
  | ItemMissing            (** [null] or the empty string *)
  | ItemUnparsable         (** [JSON.parse] throws *)
  | ItemParsed (v : jsval).

Definition sanitize_entries (ps : obj jsval) : option (obj jsval) :=
  map_opt (fun kv => option_map (fun v => (fst kv, v)) (sanitize_room (snd kv))) ps.

Definition empty_object : jsval := VObj [].

(** [loadRooms()], returning the initial value of [rooms]. *)
Definition loadRooms (isBrowser : bool) (stored : stored_item) : jsval :=
  if negb isBrowser then empty_object else
  match stored with
  | ItemMissing | ItemUnparsable => empty_object
  | ItemParsed parsed =>
      match parsed with
      | VObj ps => match sanitize_entries ps with Some ps' => VObj ps' | None => empty_object end
      | VArr es ps =>
          match map_opt sanitize_room es, sanitize_entries ps with
          | Some es', Some ps' => VArr es' ps'
          | _, _ => empty_object
          end
      | VStr [] => parsed
      | VStr _ => empty_object          (* each character is a primitive room *)
      | VNum _ | VBool _ => parsed      (* no own enumerable properties *)
      | VNull => empty_object           (* [Object.values(null)] throws *)
      end
  end.

(** ** [handleCreateRoom] (App.tsx) *)

(** [CreateRoomFormValues] (types.ts). *)
Record CreateRoomFormValues := mkFormValues {
  fv_roomName : jsstr;
  fv_deckType : DeckType;
  fv_customDeck : jsstr
}.

(** ['Informe um nome antes de criar uma sala.'] *)
Definition name_required_before_create : jsstr := js "Informe um nome antes de criar uma sala.".

(** The tail of the default room name [`${trimmedName} - Planning Poker`]. *)
Definition planning_poker_suffix : jsstr := js " - Planning Poker".

(** What [handleCreateRoom] leaves behind: nothing (no session), the
    session error it sets, or the id it passes to [setCurrentRoomId]. *)
Inductive create_outcome :=
  | CreateSkipped
  | CreateNameError (message : jsstr)
  | CreateEntered (roomId : jsstr).

(** [handleCreateRoom(values)] for a session whose fields are strings;
    [now] is the [Date.now()] of the host profile, [env] what [createRoom]
    reads. *)
Definition handleCreateRoom (session : option ParticipantProfile) (values : CreateRoomFormValues)
  (now : Z) (env : create_env) (s : store) : res (create_outcome * store) :=
  match session with
  | None => Ok (CreateSkipped, s)
  | Some sess =>
      let trimmedName := trim (prof_name sess) in
      match trimmedName with
      | [] => Ok (CreateNameError name_required_before_create, s)
      | _ =>
          let deckValues := match fv_deckType values with
                            | Custom => Some (parseCustomDeck (fv_customDeck values))
                            | _ => None
                            end in
          let hostProfile := mkProfile (prof_id sess) trimmedName (prof_avatarColor sess) now in
          let name := match trim (fv_roomName values) with
                      | [] => trimmedName ++ planning_poker_suffix
                      | t => t
                      end in
          match createRoom (mkCreateRoomOptions name (fv_deckType values) deckValues hostProfile) env s with
          | Ok (roomId, s') => Ok (CreateEntered roomId, s')
          | Throw => Throw
          end
      end
  end.

(** ** The vote summary of [RoomView] (components/RoomView.tsx) *)

(** [Object.values(o)], in the order of [Object.keys(o)]. *)
Definition js_values {A} (o : obj A) : list A :=
  flat_map (fun k => match own_get k o with Some v => [v] | None => [] end) (js_keys o).

(** [Map.prototype.set] on a [Map] with string keys, kept in insertion
    order. *)
Fixpoint map_set (k : jsstr) (n : Z) (m : list (jsstr * Z)) : list (jsstr * Z) :=
  match m with
  | [] => [(k, n)]
  | (k', n') :: t => if jsstr_eqb k k' then (k', n) :: t else (k', n') :: map_set k n t
  end.

(** [counts.get(vote) ?? 0]. *)
Definition map_get_or0 (k : jsstr) (m : list (jsstr * Z)) : Z :=
  match own_get k m with Some n => n | None => 0 end.

(** The body of the [forEach]: a falsy vote ([null] or ['']) is skipped. *)
Definition count_vote (counts : list (jsstr * Z)) (vote : option jsstr) : list (jsstr * Z) :=
  match vote with
  | None => counts
  | Some v => if Nat.eqb (List.length v) 0 then counts else map_set v (map_get_or0 v counts + 1) counts
  end.

Definition vote_counts (votes : list (option jsstr)) : list (jsstr * Z) :=
  fold_left count_vote votes [].

(** One insertion step of a stable sort under [(a, b) => b[1] - a[1]]:
    the entry goes after every entry whose count is not smaller. *)
Fixpoint insert_by_count (e : jsstr * Z) (l : list (jsstr * Z)) : list (jsstr * Z) :=
  match l with
  | [] => [e]
  | x :: t => if snd x <? snd e then e :: l else x :: insert_by_count e t
  end.

(** [Array.from(counts.entries()).sort((a, b) => b[1] - a[1])]; the sort is
    stable, so its result is that of this insertion sort. *)
Definition sort_by_count_desc (l : list (jsstr * Z)) : list (jsstr * Z) :=
  fold_left (fun acc e => insert_by_count e acc) l [].

(** [voteSummary], from the values of [room.votes]. *)
Definition voteSummary (votes : list (option jsstr)) : list (jsstr * Z) :=
  sort_by_count_desc (vote_counts votes).

Definition room_voteSummary (room : RoomState) : list (jsstr * Z) :=
  voteSummary (js_values (r_votes room)).

(** ** Properties stated by the spec *)

(** A room whose [participants] object has no own property. *)
Definition participants_nonempty (r : RoomState) : Prop := r_participants r <> [].

Definition no_empty_room (s : store) : Prop :=
  Forall (fun kv => participants_nonempty (snd kv)) (rooms s).

(** The invariant of a room the spec states: every key of [participants]
    is a key of [votes], and a non-empty [participants] contains [hostId]. *)
Definition room_invariant (r : RoomState) : bool :=
  forallb (fun k => own_has k (r_votes r)) (map fst (r_participants r))
  && match r_participants r with
     | [] => true
     | _ => own_has (r_hostId r) (r_participants r)
     end.

(** The room id format [XXXX-YYYY] of the spec: two groups of four
    uppercase alphanumeric characters around a dash. *)
Definition upper_alnum (c : Z) : bool := ((48 <=? c) && (c <=? 57)) || ((65 <=? c) && (c <=? 90)).

Definition room_id_format (id : jsstr) : bool :=
  Nat.eqb (List.length id) 9 && forallb upper_alnum (firstn 4 id)
  && (nth 4 id 0 =? 45) && forallb upper_alnum (skipn 5 id).

(** A name no plain object inherits, whatever [revealVotes('__proto__')]
    did before: neither a property of [Object.prototype] nor ["revealed"]. *)
Definition safe_id (k : jsstr) : bool :=
  negb (existsb (jsstr_eqb k) object_prototype_keys) && negb (jsstr_eqb k (js "revealed")).

(** A call whose room and participant ids are all safe (the host of a new
    room may have any id). *)
Definition safe_operation (o : operation) : bool :=
  match o with
  | OpCreateRoom _ _ => true
  | OpJoinRoom roomId profile => safe_id roomId && safe_id (prof_id profile)
  | OpLeaveRoom roomId pid | OpRemoveParticipant roomId pid
  | OpUpdateParticipantProfile roomId pid _ | OpSubmitVote roomId pid _
  | OpTransferHost roomId pid => safe_id roomId && safe_id pid
  | OpRevealVotes roomId | OpResetVotes roomId => safe_id roomId
  end.

(** The states reachable from the empty table by calls with safe ids. *)
Inductive safe_reachable : store -> Prop :=
  | safe_reachable_empty : safe_reachable empty_store
  | safe_reachable_step : forall o s,
      safe_operation o = true -> safe_reachable s -> safe_reachable (state_after o s).

(** The id of the room a call works on. *)
Definition op_target (o : operation) : jsstr :=
  match o with
  | OpCreateRoom _ env => generateRoomId (env_random36 env) (env_now_id env)
  | OpJoinRoom roomId _ | OpLeaveRoom roomId _ | OpUpdateParticipantProfile roomId _ _
  | OpSubmitVote roomId _ _ | OpRevealVotes roomId | OpResetVotes roomId
  | OpRemoveParticipant roomId _ | OpTransferHost roomId _ => roomId
  end.

(** A string without leading or trailing whitespace. *)
Definition edge_not_ws (t : jsstr) : bool :=
  match t with [] => true | c :: _ => negb (is_ws c) end.

Definition is_trimmed (t : jsstr) : bool := edge_not_ws t && edge_not_ws (rev t).

(** How often the vote [v] occurs among the values of [room.votes]. *)
Definition occurrences (v : jsstr) (votes : list (option jsstr)) : nat :=
  List.length (filter (fun x => match x with Some w => jsstr_eqb v w | None => false end) votes).

(** A room satisfying [room_invariant] with at least one participant. *)
Definition room_wellformed (r : RoomState) : Prop := room_invariant r = true /\ participants_nonempty r.

(** [draft'] is [draft], or [draft] with only the key [roomId] set or deleted. *)
Definition touches_only (roomId : jsstr) (draft draft' : obj RoomState) : Prop :=
  draft' = draft \/ (exists r, draft' = js_set roomId r draft) \/ draft' = js_delete roomId draft.

(** Contents of the count map after a prefix of the votes. *)
Definition counts_of (pre : list (option jsstr)) (v : jsstr) : option Z :=
  if Nat.eqb (List.length v) 0 then None
  else if Nat.eqb (occurrences v pre) 0 then None
  else Some (Z.of_nat (occurrences v pre)).

(** [a] may come before [b] in a list sorted by decreasing count. *)
Definition count_desc (a b : jsstr * Z) : Prop := snd b <= snd a.

(** ** Sample inputs *)

Definition demo_host : ParticipantProfile :=
  mkProfile (js "U1") (js "Ana") (js "#3498db") 1760000000000.

Definition demo_options : CreateRoomOptions :=
  mkCreateRoomOptions (js "Sprint 12") Fibonacci None demo_host.

(** [Math.random()] rendered in base 36, and two clock readings. *)
Definition demo_env : create_env :=
  mkCreateEnv (js "0.4fzyo82mvyr") 1760000000000 1760000000000.

(** The id [createRoom demo_options demo_env] generates. *)
Definition demo_room_id : jsstr := js "4FZY-K3CW".

Definition demo_state : store := run_all [OpCreateRoom demo_options demo_env] empty_store.

(** A participant whose id is the name of an [Object.prototype] method. *)
Definition inherited_name_profile : ParticipantProfile :=
  mkProfile (js "toString") (js "Bia") (js "#9b59b6") 1760000000500.

Definition second_profile : ParticipantProfile :=
  mkProfile (js "U2") (js "Caio") (js "#e67e22") 1760000000100.

(** [demo_host] joining again under another name and a later clock. *)
Definition rejoin_profile : ParticipantProfile :=
  mkProfile (js "U1") (js "Ana Maria") (js "#1abc9c") 1760000009999.

Definition two_participant_state : store :=
  run_all [OpCreateRoom demo_options demo_env; OpJoinRoom demo_room_id second_profile] empty_store.

(** The raw custom deck text of the spec's example. *)
Definition sample_deck_input : jsstr := js " 1, 2,,  3 " ++ [10] ++ js "5".

(** The sample of a custom deck with a repeated card. *)
Definition repeated_card_options : CreateRoomOptions :=
  mkCreateRoomOptions (js "Sprint 12") Custom (Some (parseCustomDeck (js "1, 1, 2"))) demo_host.

(** A stored table whose room has a [deckValues] that is not an array. *)
Definition stored_room_without_deck : jsval :=
  VObj [(js "R", VObj [(js "deckValues", VNum (js "5")); (js "revealed", VBool true)])].

(** ** Properties of the embedding *)

Lemma jsstr_eqb_true a b : jsstr_eqb a b = true <-> a = b.
Proof. unfold jsstr_eqb; destruct (list_eq_dec Z.eq_dec a b); split; congruence. Qed.

Lemma jsstr_eqb_refl a : jsstr_eqb a a = true.
Proof. apply jsstr_eqb_true; reflexivity. Qed.

Lemma jsstr_eqb_false a b : a <> b -> jsstr_eqb a b = false.
Proof. intro H; unfold jsstr_eqb; destruct (list_eq_dec Z.eq_dec a b); congruence. Qed.

Section Objects.
Context {A : Type}.
Implicit Types (o : obj A) (k : jsstr) (v : A).

Lemma own_get_In k o v : own_get k o = Some v -> In (k, v) o.
Proof.
  induction o as [|[k' v'] t IH]; simpl; [discriminate|].
  destruct (jsstr_eqb k k') eqn:E.
  - apply jsstr_eqb_true in E; subst; intros [= <-]; left; reflexivity.
  - intro H; right; auto.
Qed.

Lemma own_has_keys k o : own_has k o = true <-> In k (map fst o).
Proof.
  unfold own_has; induction o as [|[k' v'] t IH]; simpl; [split; [discriminate|tauto]|].
  destruct (jsstr_eqb k k') eqn:E.
  - apply jsstr_eqb_true in E; subst; tauto.
  - rewrite IH; split; [tauto|]. intros [H|H]; [|exact H].
    subst; rewrite jsstr_eqb_refl in E; discriminate.
Qed.

Lemma own_get_update_same k v o : own_has k o = true -> own_get k (own_update k v o) = Some v.
Proof.
  unfold own_has; induction o as [|[k' v'] t IH]; simpl; [discriminate|].
  destruct (jsstr_eqb k k') eqn:E; simpl; rewrite E; auto.
Qed.

Lemma own_get_update_other k k' v o : k <> k' -> own_get k' (own_update k v o) = own_get k' o.
Proof.
  intro Hne; induction o as [|[k'' v'] t IH]; simpl; [reflexivity|].
  destruct (jsstr_eqb k k'') eqn:E; simpl.
  - apply jsstr_eqb_true in E; subst.
    rewrite (jsstr_eqb_false k' k''); auto.
  - rewrite IH; reflexivity.
Qed.

Lemma own_get_app_none k o l : own_get k o = None -> own_get k (o ++ l) = own_get k l.
Proof.
  induction o as [|[k' v'] t IH]; simpl; [reflexivity|].
  destruct (jsstr_eqb k k'); [discriminate|exact IH].
Qed.

Lemma own_get_js_set_same k v o : k <> js "__proto__" -> own_get k (js_set k v o) = Some v.
Proof.
  intro Hp; unfold js_set.
  destruct (own_has k o) eqn:H; [apply own_get_update_same; exact H|].
  rewrite (jsstr_eqb_false _ _ Hp).
  unfold own_has in H; destruct (own_get k o) eqn:G; [discriminate|].
  rewrite own_get_app_none by exact G; simpl; rewrite jsstr_eqb_refl; reflexivity.
Qed.

Lemma own_get_js_set_other k k' v o : k <> k' -> own_get k' (js_set k v o) = own_get k' o.
Proof.
  intro Hne; unfold js_set.
  destruct (own_has k o); [apply own_get_update_other; exact Hne|].
  destruct (jsstr_eqb k (js "__proto__")); [reflexivity|].
  destruct (own_get k' o) eqn:G.
  - clear -G; induction o as [|[k1 v1] t IH]; simpl in *; [discriminate|].
    destruct (jsstr_eqb k' k1); [exact G|apply IH; exact G].
  - rewrite own_get_app_none by exact G; simpl.
    rewrite (jsstr_eqb_false k' k); [reflexivity|congruence].
Qed.

Lemma own_update_nonempty k v o : o <> [] -> own_update k v o <> [].
Proof. destruct o as [|[k' v'] t]; simpl; [congruence|]. destruct (jsstr_eqb k k'); discriminate. Qed.

Lemma js_set_nonempty k v o : o <> [] -> js_set k v o <> [].
Proof.
  intro H; unfold js_set.
  destruct (own_has k o); [apply own_update_nonempty; exact H|].
  destruct (jsstr_eqb k (js "__proto__")); [exact H|].
  destruct o; simpl; discriminate.
Qed.

Lemma in_js_delete k k' o : In k' (map fst (js_delete k o)) <-> In k' (map fst o) /\ k <> k'.
Proof.
  unfold js_delete; induction o as [|[k1 v1] t IH]; simpl; [tauto|].
  destruct (jsstr_eqb k k1) eqn:E; simpl.
  - apply jsstr_eqb_true in E; subst. rewrite IH. split; [tauto|].
    intros [[H|H] Hn]; [congruence|tauto].
  - rewrite IH. split.
    + intros [H|[H1 H2]]; [subst; split; [left; reflexivity|]|tauto].
      intro Heq; subst; rewrite jsstr_eqb_refl in E; discriminate.
    + tauto.
Qed.

Section ForallSnd.
Variable Q : A -> Prop.

Lemma Forall_own_update k v o :
  Forall (fun kv => Q (snd kv)) o -> Q v -> Forall (fun kv => Q (snd kv)) (own_update k v o).
Proof.
  induction 1 as [|[k' v'] t Hx Ht IH]; simpl; intros Hv; [constructor|].
  destruct (jsstr_eqb k k'); constructor; simpl; auto.
Qed.

Lemma Forall_js_set k v o :
  Forall (fun kv => Q (snd kv)) o -> Q v -> Forall (fun kv => Q (snd kv)) (js_set k v o).
Proof.
  intros Ho Hv; unfold js_set.
  destruct (own_has k o); [apply Forall_own_update; auto|].
  destruct (jsstr_eqb k (js "__proto__")); [exact Ho|].
  apply Forall_app; split; [exact Ho|constructor; auto].
Qed.

Lemma Forall_js_delete k o :
  Forall (fun kv => Q (snd kv)) o -> Forall (fun kv => Q (snd kv)) (js_delete k o).
Proof.
  unfold js_delete; induction 1; simpl; [constructor|].
  destruct (negb _); [constructor|]; auto.
Qed.

End ForallSnd.

Lemma Forall_own_get (Q : A -> Prop) k o v :
  Forall (fun kv => Q (snd kv)) o -> own_get k o = Some v -> Q v.
Proof.
  intros H G; apply own_get_In in G.
  rewrite Forall_forall in H; exact (H _ G).
Qed.

Lemma in_insert_index x k n l :
  In x (map fst (insert_index k n l)) <-> x = k \/ In x (map fst l).
Proof.
  induction l as [|[k' n'] t IH]; simpl; [firstorder congruence|].
  destruct (n <=? n'); simpl; [firstorder congruence|]. rewrite IH; firstorder congruence.
Qed.

Lemma in_index_keys x o :
  In x (map fst (index_keys o)) <-> In x (map fst o) /\ array_index x <> None.
Proof.
  induction o as [|[k v] t IH]; simpl; [tauto|].
  destruct (array_index k) eqn:E.
  - rewrite in_insert_index, IH. split.
    + intros [H|[H1 H2]]; [subst; rewrite E; split; [left; reflexivity|discriminate]|tauto].
    + intros [[H|H] H2]; [left; congruence|right; tauto].
  - rewrite IH. split; [tauto|].
    intros [[H|H] H2]; [subst; congruence|tauto].
Qed.

(** [Object.keys] lists exactly the own properties. *)
Lemma in_js_keys x o : In x (js_keys o) <-> In x (map fst o).
Proof.
  unfold js_keys; rewrite in_app_iff, in_index_keys.
  assert (Hf : In x (map fst (filter (fun kv => match array_index (fst kv) with
                                                 | Some _ => false | None => true end) o))
               <-> In x (map fst o) /\ array_index x = None).
  { induction o as [|[k v] t IH]; simpl; [tauto|].
    destruct (array_index k) eqn:E; simpl; rewrite IH; split.
    - tauto.
    - intros [[H|H] H2]; [subst; congruence|tauto].
    - intros [H|H]; [subst; tauto|tauto].
    - intros [[H|H] H2]; [left; exact H|tauto]. }
  rewrite Hf; destruct (array_index x); split.
  - intros [[H _]|[H _]]; exact H.
  - intros H; left; split; [exact H|discriminate].
  - intros [[H _]|[H _]]; exact H.
  - intros H; right; split; [exact H|reflexivity].
Qed.

End Objects.

Lemma js_get_own {A} pol k (o : obj A) v : js_get pol k o = LOwn v -> own_get k o = Some v.
Proof. unfold js_get; destruct (own_get k o); [congruence|destruct (proto_lookup pol k); discriminate]. Qed.

(** *** No room is left without participants *)

Section NoEmptyRoom.

Let P := fun kv : jsstr * RoomState => participants_nonempty (snd kv).

Ltac open_room G :=
  match goal with
  | |- context [js_get ?pol ?k ?d] => destruct (js_get pol k d) as [?room| [|] |] eqn:G
  end.

Ltac finish_room H G :=
  apply (Forall_js_set participants_nonempty); [exact H|];
  pose proof (Forall_own_get participants_nonempty _ _ _ H (js_get_own _ _ _ _ G)) as Hr;
  unfold participants_nonempty in *; simpl.

Lemma joinRoom_mutator_keeps roomId profile draft pol draft' pol' :
  Forall P draft -> joinRoom_mutator roomId profile draft pol = Ok (draft', pol') -> Forall P draft'.
Proof.
  intros H; unfold joinRoom_mutator; open_room G; intro E; inversion E; subst; try exact H.
  finish_room H G.
  destruct (js_in _ _ _); simpl; apply js_set_nonempty; exact Hr.
Qed.

Lemma leaveRoom_mutator_keeps roomId pid draft pol draft' pol' :
  Forall P draft -> leaveRoom_mutator roomId pid draft pol = Ok (draft', pol') -> Forall P draft'.
Proof.
  intros H; unfold leaveRoom_mutator; open_room G; intro E; try (inversion E; subst; exact H).
  simpl in E. destruct (js_keys (js_delete pid (r_participants room))) as [|first rest] eqn:K.
  - inversion E; subst. apply (Forall_js_delete participants_nonempty); exact H.
  - inversion E; subst. finish_room H G.
    assert (Hne : js_delete pid (r_participants room) <> []).
    { intro Z0; rewrite Z0 in K; discriminate. }
    destruct (jsstr_eqb _ _); destruct (r_revealed _ && _); simpl; exact Hne.
Qed.

Lemma updateParticipantProfile_mutator_keeps roomId pid u draft pol draft' pol' :
  Forall P draft -> updateParticipantProfile_mutator roomId pid u draft pol = Ok (draft', pol') ->
  Forall P draft'.
Proof.
  intros H; unfold updateParticipantProfile_mutator; open_room G; intro E;
    try (inversion E; subst; exact H).
  destruct (js_get pol pid (r_participants room)); inversion E; subst; try exact H;
    finish_room H G; apply js_set_nonempty; exact Hr.
Qed.

Lemma submitVote_mutator_keeps roomId pid v draft pol draft' pol' :
  Forall P draft -> submitVote_mutator roomId pid v draft pol = Ok (draft', pol') -> Forall P draft'.
Proof.
  intros H; unfold submitVote_mutator; open_room G; intro E; try (inversion E; subst; exact H).
  destruct (negb _); inversion E; subst; [exact H|].
  finish_room H G. destruct v; exact Hr.
Qed.

Lemma revealVotes_mutator_keeps roomId draft pol draft' pol' :
  Forall P draft -> revealVotes_mutator roomId draft pol = Ok (draft', pol') -> Forall P draft'.
Proof.
  intros H; unfold revealVotes_mutator; open_room G; intro E; try (inversion E; subst; exact H).
  inversion E; subst; finish_room H G; exact Hr.
Qed.

Lemma resetVotes_mutator_keeps roomId draft pol draft' pol' :
  Forall P draft -> resetVotes_mutator roomId draft pol = Ok (draft', pol') -> Forall P draft'.
Proof.
  intros H; unfold resetVotes_mutator; open_room G; intro E; try (inversion E; subst; exact H).
  inversion E; subst; finish_room H G; exact Hr.
Qed.

Lemma transferHost_mutator_keeps roomId h draft pol draft' pol' :
  Forall P draft -> transferHost_mutator roomId h draft pol = Ok (draft', pol') -> Forall P draft'.
Proof.
  intros H; unfold transferHost_mutator; open_room G; intro E; try (inversion E; subst; exact H).
  destruct (negb _); inversion E; subst; [exact H|].
  finish_room H G. exact Hr.
Qed.

Lemma updateRooms_keeps (m : mutator) s s' :
  (forall draft pol draft' pol', Forall P draft -> m draft pol = Ok (draft', pol') -> Forall P draft') ->
  no_empty_room s -> updateRooms m s = Ok s' -> no_empty_room s'.
Proof.
  unfold updateRooms, no_empty_room; intros Hm Hs.
  destruct (m (rooms s) (proto_revealed s)) as [[d p]|] eqn:E; intro R; inversion R; subst.
  simpl; exact (Hm _ _ _ _ Hs E).
Qed.

Lemma state_after_keeps o s : no_empty_room s -> no_empty_room (state_after o s).
Proof.
  intro Hs; unfold state_after.
  destruct (run_operation o s) as [s'|] eqn:R; [|exact Hs].
  destruct o; unfold run_operation in R.
  - unfold createRoom in R.
    destruct (updateRooms _ s) as [s1|] eqn:U; inversion R; subst.
    refine (updateRooms_keeps _ _ _ _ Hs U).
    intros d p d' p' Hd E; inversion E; subst.
    apply (Forall_js_set participants_nonempty); [exact Hd|].
    unfold participants_nonempty; simpl; discriminate.
  - unfold joinRoom in R.
    destruct (js_get _ roomId (rooms s)); try (inversion R; subst; exact Hs);
      destruct (updateRooms _ s) as [s1|] eqn:U; inversion R; subst;
      exact (updateRooms_keeps _ _ _ (joinRoom_mutator_keeps roomId profile) Hs U).
  - unfold leaveRoom in R.
    destruct (js_get _ roomId (rooms s)); try (inversion R; subst; exact Hs);
      exact (updateRooms_keeps _ _ _ (leaveRoom_mutator_keeps roomId participantId) Hs R).
  - exact (updateRooms_keeps _ _ _ (updateParticipantProfile_mutator_keeps roomId participantId updates) Hs R).
  - exact (updateRooms_keeps _ _ _ (submitVote_mutator_keeps roomId participantId value) Hs R).
  - exact (updateRooms_keeps _ _ _ (revealVotes_mutator_keeps roomId) Hs R).
  - exact (updateRooms_keeps _ _ _ (resetVotes_mutator_keeps roomId) Hs R).
  - unfold removeParticipant, leaveRoom in R.
    destruct (js_get _ roomId (rooms s)); try (inversion R; subst; exact Hs);
      exact (updateRooms_keeps _ _ _ (leaveRoom_mutator_keeps roomId participantId) Hs R).
  - exact (updateRooms_keeps _ _ _ (transferHost_mutator_keeps roomId newHostId) Hs R).
Qed.

End NoEmptyRoom.

Lemma reachable_no_empty_room s : reachable s -> no_empty_room s.
Proof.
  induction 1; [constructor|apply state_after_keeps; assumption].
Qed.

Lemma own_get_js_get {A} pol k (o : obj A) v : own_get k o = Some v -> js_get pol k o = LOwn v.
Proof. unfold js_get; intros ->; reflexivity. Qed.

Lemma own_has_of_get {A} k (o : obj A) v : own_get k o = Some v -> own_has k o = true.
Proof. unfold own_has; intros ->; reflexivity. Qed.

Lemma own_get_js_delete_same {A} k (o : obj A) : own_get k (js_delete k o) = None.
Proof.
  unfold js_delete; induction o as [|[k' v'] t IH]; simpl; [reflexivity|].
  destruct (jsstr_eqb k k') eqn:E; simpl; [exact IH|rewrite E; exact IH].
Qed.

Lemma own_get_set_own {A} k v (o : obj A) : own_has k o = true -> own_get k (js_set k v o) = Some v.
Proof. intro H; unfold js_set; rewrite H; apply own_get_update_same; exact H. Qed.

Lemma js_set_own {A} k v (o : obj A) : own_has k o = true -> js_set k v o = own_update k v o.
Proof. intro H; unfold js_set; rewrite H; reflexivity. Qed.

(** *** Claims about a single call *)

(** Leaving as host: the outcome of [leaveRoom] on an own room, when the
    departing participant is the host and someone else remains. *)
Lemma leaveRoom_host_outcome s roomId room H :
  own_get roomId (rooms s) = Some room ->
  r_hostId room = H ->
  forall first rest,
  js_keys (js_delete H (r_participants room)) = first :: rest ->
  leaveRoom roomId H s =
    Ok (mkStore (js_set roomId
                   (with_hostId (with_votes (with_participants room (js_delete H (r_participants room)))
                                            (js_delete H (r_votes room))) first)
                   (rooms s))
                (proto_revealed s)).
Proof.
  intros G Hh first rest K.
  unfold leaveRoom; rewrite (own_get_js_get _ _ _ _ G).
  unfold updateRooms, leaveRoom_mutator; rewrite (own_get_js_get _ _ _ _ G).
  simpl; rewrite K, Hh, jsstr_eqb_refl; simpl.
  destruct (r_revealed room); reflexivity.
Qed.

(** C5 (host reassignment): when the host [H] of a room leaves and another
    participant [A] remains, the room is kept without [H], and its new host
    is the first of [Object.keys] of the remaining participants: a
    participant other than [H], determined by the participants object. *)
Theorem leaveRoom_reassigns_host s roomId room H A :
  own_get roomId (rooms s) = Some room ->
  r_hostId room = H ->
  own_has H (r_participants room) = true ->
  own_has A (r_participants room) = true ->
  A <> H ->
  exists s' room' first rest,
    leaveRoom roomId H s = Ok s' /\
    own_get roomId (rooms s') = Some room' /\
    r_participants room' = js_delete H (r_participants room) /\
    js_keys (js_delete H (r_participants room)) = first :: rest /\
    r_hostId room' = first /\
    first <> H /\
    own_has first (r_participants room') = true.
Proof.
  intros G Hh HH HA Hne.
  assert (Hin : In A (js_keys (js_delete H (r_participants room)))).
  { apply in_js_keys, in_js_delete; split; [apply own_has_keys; exact HA|congruence]. }
  destruct (js_keys (js_delete H (r_participants room))) as [|first rest] eqn:K; [contradiction|].
  assert (Hf : In first (map fst (js_delete H (r_participants room)))).
  { apply in_js_keys; rewrite K; left; reflexivity. }
  apply in_js_delete in Hf as Hf'; destruct Hf' as [_ Hfh].
  eexists; eexists; exists first, rest; split; [exact (leaveRoom_host_outcome s roomId room H G Hh first rest K)|].
  simpl; split; [apply own_get_set_own; exact (own_has_of_get _ _ _ G)|].
  simpl; split; [reflexivity|]; split; [reflexivity|]; split; [reflexivity|]; split; [congruence|].
  apply own_has_keys; exact Hf.
Qed.

(** C2 (no empty room): in every state reachable from the empty table, every
    room has at least one participant; and [leaveRoom] (and
    [removeParticipant]) deletes a room whose last participant leaves. *)
Theorem reachable_rooms_have_participants :
  (forall s roomId room,
     reachable s -> own_get roomId (rooms s) = Some room -> r_participants room <> []) /\
  (forall s roomId pid room,
     own_get roomId (rooms s) = Some room ->
     js_delete pid (r_participants room) = [] ->
     exists s', leaveRoom roomId pid s = Ok s' /\ removeParticipant roomId pid s = Ok s' /\
                own_get roomId (rooms s') = None).
Proof.
  split.
  - intros s roomId room Hs G.
    exact (Forall_own_get participants_nonempty _ _ _ (reachable_no_empty_room s Hs) G).
  - intros s roomId pid room G E.
    assert (Hl : leaveRoom roomId pid s = Ok (mkStore (js_delete roomId (rooms s)) (proto_revealed s))).
    { unfold leaveRoom; rewrite (own_get_js_get _ _ _ _ G).
      unfold updateRooms, leaveRoom_mutator; rewrite (own_get_js_get _ _ _ _ G).
      simpl; rewrite E; reflexivity. }
    eexists; split; [exact Hl|split; [exact Hl|]].
    simpl; apply own_get_js_delete_same.
Qed.

(** C6 (re-join): joining again a room that already holds participant [P]
    keeps [P]'s [joinedAt], takes the display fields from the new profile,
    and keeps an existing vote entry; a vote slot is added only when
    [P in room.votes] is false. *)
Theorem joinRoom_rejoin_idempotent s roomId room profile old j :
  own_get roomId (rooms s) = Some room ->
  own_get (prof_id profile) (r_participants room) = Some old ->
  p_joinedAt old = Some j ->
  exists room' s',
    joinRoom roomId profile s = Ok (JoinSuccess (LOwn room'), s') /\
    rooms s' = own_update roomId room' (rooms s) /\
    r_participants room' =
      own_update (prof_id profile)
                 (mkParticipant (Some (prof_id profile)) (Some (prof_name profile))
                                (Some (prof_avatarColor profile)) (Some j))
                 (r_participants room) /\
    own_get (prof_id profile) (r_participants room') =
      Some (mkParticipant (Some (prof_id profile)) (Some (prof_name profile))
                          (Some (prof_avatarColor profile)) (Some j)) /\
    (own_has (prof_id profile) (r_votes room) = true ->
       room' = with_participants room (r_participants room')) /\
    r_votes room' = (if js_in (proto_revealed s) (prof_id profile) (r_votes room)
                     then r_votes room else js_set (prof_id profile) None (r_votes room)).
Proof.
  intros G Gp Hj.
  set (rec := mkParticipant (Some (prof_id profile)) (Some (prof_name profile))
                            (Some (prof_avatarColor profile)) (Some j)).
  set (room1 := with_participants room (own_update (prof_id profile) rec (r_participants room))).
  set (room2 := if js_in (proto_revealed s) (prof_id profile) (r_votes room) then room1
                else with_votes room1 (js_set (prof_id profile) None (r_votes room))).
  assert (Hp : own_has (prof_id profile) (r_participants room) = true) by exact (own_has_of_get _ _ _ Gp).
  assert (Hr : own_has roomId (rooms s) = true) by exact (own_has_of_get _ _ _ G).
  assert (Hm : joinRoom_mutator roomId profile (rooms s) (proto_revealed s)
               = Ok (own_update roomId room2 (rooms s), proto_revealed s)).
  { unfold joinRoom_mutator; rewrite (own_get_js_get _ _ _ _ G), (own_get_js_get _ _ _ _ Gp), Hj.
    rewrite (js_set_own _ _ _ Hp), (js_set_own _ _ _ Hr); reflexivity. }
  exists room2, (mkStore (own_update roomId room2 (rooms s)) (proto_revealed s)).
  split.
  { unfold joinRoom; rewrite (own_get_js_get _ _ _ _ G).
    unfold updateRooms; rewrite Hm; simpl.
    rewrite own_get_js_get with (v := room2); [reflexivity|].
    apply own_get_update_same; exact Hr. }
  split; [reflexivity|].
  assert (Hparts : r_participants room2 = own_update (prof_id profile) rec (r_participants room)).
  { unfold room2; destruct (js_in _ _ _); reflexivity. }
  split; [exact Hparts|].
  split; [rewrite Hparts; apply own_get_update_same; exact Hp|].
  split.
  - intro Hv. rewrite Hparts. unfold own_has in Hv.
    unfold room2, js_in, js_get.
    destruct (own_get (prof_id profile) (r_votes room)); [reflexivity|discriminate].
  - unfold room2; destruct (js_in _ _ _); reflexivity.
Qed.

(** *** [createRoom] *)

Lemma createRoom_outcome options env s :
  createRoom options env s =
    Ok (generateRoomId (env_random36 env) (env_now_id env),
        mkStore (js_set (generateRoomId (env_random36 env) (env_now_id env))
                        (new_room (generateRoomId (env_random36 env) (env_now_id env)) options (env_now env))
                        (rooms s))
                (proto_revealed s)).
Proof. reflexivity. Qed.

(** A generated id contains ['-'], so it is never ["__proto__"]. *)
Lemma generateRoomId_not_proto rnd now : generateRoomId rnd now <> js "__proto__".
Proof.
  intro E.
  assert (Hin : In 45 (generateRoomId rnd now)).
  { unfold generateRoomId; apply in_or_app; right; left; reflexivity. }
  rewrite E in Hin; vm_compute in Hin; intuition discriminate.
Qed.

Lemma createRoom_new_room options env s :
  exists id s',
    createRoom options env s = Ok (id, s') /\
    own_get id (rooms s') = Some (new_room id options (env_now env)).
Proof.
  eexists; eexists; split; [apply createRoom_outcome|].
  simpl; apply own_get_js_set_same, generateRoomId_not_proto.
Qed.

Lemma trim_start_nil s : trim_start s = [] <-> forallb is_ws s = true.
Proof.
  induction s as [|c t IH]; simpl; [tauto|].
  destruct (is_ws c); simpl; [exact IH|split; discriminate].
Qed.

Lemma trim_start_head s c t : trim_start s = c :: t -> is_ws c = false.
Proof.
  induction s as [|c' t' IH]; simpl; [discriminate|].
  destruct (is_ws c') eqn:E; [exact IH|intros [= <- _]; exact E].
Qed.

Lemma forallb_rev {B} (f : B -> bool) l : forallb f (rev l) = forallb f l.
Proof.
  induction l as [|a l IH]; simpl; [reflexivity|].
  rewrite forallb_app, IH; simpl; rewrite andb_true_r, andb_comm; reflexivity.
Qed.

(** [s.trim()] is empty exactly when [s] is made of whitespace. *)
Lemma trim_nil s : trim s = [] <-> forallb is_ws s = true.
Proof.
  unfold trim; split.
  - intro H.
    assert (H1 : trim_start (rev (trim_start s)) = []).
    { rewrite <- (rev_involutive (trim_start _)), H; reflexivity. }
    apply trim_start_nil in H1; rewrite forallb_rev in H1.
    destruct (trim_start s) as [|c t] eqn:T.
    + apply trim_start_nil; exact T.
    + apply trim_start_head in T; simpl in H1; rewrite T in H1; discriminate.
  - intro H; apply trim_start_nil in H; rewrite H; reflexivity.
Qed.

Lemma parseCustomDeck_all_blank input :
  Forall (fun e => trim e = []) (split_deck_input input) -> parseCustomDeck input = [].
Proof.
  unfold parseCustomDeck; induction 1 as [|e l He _ IH]; simpl; [reflexivity|].
  rewrite He; exact IH.
Qed.

Lemma reachable_run_all ops s : reachable s -> reachable (run_all ops s).
Proof.
  revert s; induction ops as [|o ops IH]; intros s Hs; simpl; [exact Hs|].
  apply IH, reachable_step, Hs.
Qed.

Lemma demo_state_reachable : reachable demo_state.
Proof. apply reachable_run_all, reachable_empty. Qed.

Lemma demo_room_id_generated : generateRoomId (env_random36 demo_env) (env_now_id demo_env) = demo_room_id.
Proof. vm_compute; reflexivity. Qed.

(** *** Names inherited from [Object.prototype] *)

(** C1 (room invariant), evaluated: starting from the empty table,
    [createRoom] followed by [transferHost(id, 'toString')] makes the
    inherited name ["toString"] the host ([in] sees [Object.prototype]),
    and [joinRoom] with participant id ["toString"] adds a participant
    without a vote slot ([profile.id in room.votes] is already true). *)
Theorem room_invariant_broken_by_inherited_names :
  let s1 := run_all [OpCreateRoom demo_options demo_env;
                     OpTransferHost demo_room_id (js "toString")] empty_store in
  let s2 := run_all [OpCreateRoom demo_options demo_env;
                     OpJoinRoom demo_room_id inherited_name_profile] empty_store in
  reachable s1 /\ reachable s2 /\
  option_map room_invariant (own_get demo_room_id (rooms s1)) = Some false /\
  option_map (fun r => r_hostId r) (own_get demo_room_id (rooms s1)) = Some (js "toString") /\
  option_map room_invariant (own_get demo_room_id (rooms s2)) = Some false /\
  option_map (fun r => (own_has (js "toString") (r_participants r), own_has (js "toString") (r_votes r)))
             (own_get demo_room_id (rooms s2)) = Some (true, false).
Proof.
  intros s1 s2.
  split; [apply reachable_run_all, reachable_empty|].
  split; [apply reachable_run_all, reachable_empty|].
  vm_compute; repeat split.
Qed.

(** C3 (submitVote), evaluated: ["toString"] is not a key of the
    participants of the sample room, yet [submitVote] with that id changes
    the table, because [participantId in room.participants] holds. *)
Theorem submitVote_inherited_name_changes_table :
  own_has (js "toString")
          (match own_get demo_room_id (rooms demo_state) with
           | Some r => r_participants r | None => [] end) = false /\
  match submitVote demo_room_id (js "toString") (Some (js "5")) demo_state with
  | Ok s2 => own_get demo_room_id (rooms s2) <> own_get demo_room_id (rooms demo_state)
             /\ option_map (fun r => own_get (js "toString") (r_votes r))
                           (own_get demo_room_id (rooms s2)) = Some (Some (Some (js "5")))
  | Throw => False
  end.
Proof.
  split; [vm_compute; reflexivity|].
  vm_compute; split; [congruence|reflexivity].
Qed.

(** C4 (missing room), evaluated: ["toString"] is not a room of the empty
    table, but [rooms['toString']] is a function, so [joinRoom] goes on and
    throws a TypeError instead of returning a failure result, and so do
    [leaveRoom], [updateParticipantProfile], [submitVote], [resetVotes],
    [removeParticipant] and [transferHost]; [transferHost] and
    [updateParticipantProfile] with the missing participant ["toString"]
    change the sample room. *)
Theorem missing_room_inherited_name_throws :
  own_get (js "toString") (rooms empty_store) = None /\
  joinRoom (js "toString") demo_host empty_store = Throw /\
  leaveRoom (js "toString") (js "U1") empty_store = Throw /\
  updateParticipantProfile (js "toString") (js "U1") (mkUpdates (Some (Some (js "Ana"))) None) empty_store = Throw /\
  submitVote (js "toString") (js "U1") (Some (js "5")) empty_store = Throw /\
  resetVotes (js "toString") empty_store = Throw /\
  removeParticipant (js "toString") (js "U1") empty_store = Throw /\
  transferHost (js "toString") (js "U1") empty_store = Throw /\
  match transferHost demo_room_id (js "toString") demo_state with
  | Ok s' => rooms s' <> rooms demo_state
  | Throw => False
  end /\
  match updateParticipantProfile demo_room_id (js "toString") (mkUpdates (Some (Some (js "Bia"))) None) demo_state with
  | Ok s' => rooms s' <> rooms demo_state
  | Throw => False
  end.
Proof.
  repeat split; vm_compute; try reflexivity; congruence.
Qed.

(** *** Decks, names and ids *)

(** C7 (deck resolution): a custom room created from the text
    [" 1, 2,,  3 \n5"] (parsed by [parseCustomDeck]) has deck
    ["1","2","3","5"]; when every entry of the text is blank, the deck is
    the single fallback ["?"]. *)
Theorem custom_deck_resolution :
  (forall options env s,
     opt_deckType options = Custom ->
     opt_customDeck options = Some (parseCustomDeck sample_deck_input) ->
     exists id s' room,
       createRoom options env s = Ok (id, s') /\
       own_get id (rooms s') = Some room /\
       r_deckValues room = map js ["1"; "2"; "3"; "5"]%string) /\
  (forall input,
     Forall (fun e => trim e = []) (split_deck_input input) ->
     resolveDeck Custom (Some (parseCustomDeck input)) = [js "?"]).
Proof.
  split.
  - intros options env s Ht Hc.
    destruct (createRoom_new_room options env s) as (id & s' & C & G).
    exists id, s', (new_room id options (env_now env)); split; [exact C|]; split; [exact G|].
    simpl; rewrite Ht, Hc; vm_compute; reflexivity.
  - intros input H; rewrite (parseCustomDeck_all_blank input H); reflexivity.
Qed.

(** C10 (room name): the created room is named [name.trim()], or
    ['Sala sem nome'] when the name is empty or only whitespace. *)
Theorem createRoom_name_trimmed options env s :
  exists id s' room,
    createRoom options env s = Ok (id, s') /\
    own_get id (rooms s') = Some room /\
    r_name room = (if forallb is_ws (opt_name options) then room_name_placeholder
                   else trim (opt_name options)).
Proof.
  destruct (createRoom_new_room options env s) as (id & s' & C & G).
  exists id, s', (new_room id options (env_now env)); split; [exact C|]; split; [exact G|].
  simpl; destruct (forallb is_ws (opt_name options)) eqn:F.
  - apply trim_nil in F; rewrite F; reflexivity.
  - destruct (trim (opt_name options)) eqn:T; [|reflexivity].
    apply trim_nil in T; congruence.
Qed.

(** C9 (room id format), evaluated: when [Math.random()] returns [0.5]
    (rendered ["0.i"] in base 36) or [0] (rendered ["0"]), [slice(2, 6)]
    yields fewer than four characters and the id is not [XXXX-YYYY]. *)
Theorem generateRoomId_short_random_part :
  generateRoomId (js "0.i") 1760000000000 = js "I-K3CW" /\
  room_id_format (generateRoomId (js "0.i") 1760000000000) = false /\
  generateRoomId (js "0") 1760000000000 = js "-K3CW" /\
  room_id_format (generateRoomId (js "0") 1760000000000) = false /\
  room_id_format (generateRoomId (env_random36 demo_env) (env_now_id demo_env)) = true.
Proof. vm_compute; repeat split. Qed.

Lemma sanitize_entries_get ps ps' R v :
  sanitize_entries ps = Some ps' -> own_get R ps = Some v ->
  exists v', own_get R ps' = Some v' /\ sanitize_room v = Some v'.
Proof.
  revert ps'; induction ps as [|[k w] t IH]; intros ps' E G; simpl in G; [discriminate|].
  unfold sanitize_entries in E; simpl in E.
  destruct (sanitize_room w) as [w'|] eqn:W; [|discriminate].
  fold (sanitize_entries t) in E.
  destruct (sanitize_entries t) as [t'|] eqn:T; [|discriminate].
  injection E as <-; simpl.
  destruct (jsstr_eqb R k).
  - injection G as <-; exists w'; split; [reflexivity|exact W].
  - exact (IH t' eq_refl G).
Qed.

Lemma deckValues_neq_revealed : js "revealed" <> js "deckValues".
Proof. vm_compute; congruence. Qed.

Lemma deckValues_not_proto : js "deckValues" <> js "__proto__".
Proof. vm_compute; congruence. Qed.

Lemma sanitize_props_deck fields fields' :
  sanitize_props fields = Some fields' ->
  exists ds,
    own_get (js "deckValues") fields' = Some (VArr (map VStr ds) []) /\
    (forall es aps, own_get (js "deckValues") fields = Some (VArr es aps) -> map_opt js_String es = Some ds) /\
    ((forall es aps, own_get (js "deckValues") fields <> Some (VArr es aps)) -> ds = []).
Proof.
  unfold sanitize_props; intro E.
  destruct (own_get (js "deckValues") fields) as [dv|] eqn:D.
  - destruct dv as [| | | |es aps|];
      try (injection E as <-; exists [];
           rewrite own_get_js_set_other by exact deckValues_neq_revealed;
           rewrite own_get_js_set_same by exact deckValues_not_proto;
           split; [reflexivity|]; split; [intros es aps H; discriminate|reflexivity]).
    destruct (own_has (js "map") aps); [discriminate|].
    destruct (map_opt js_String es) as [l|] eqn:M; [|discriminate].
    injection E as <-; exists l.
    rewrite own_get_js_set_other by exact deckValues_neq_revealed;
      rewrite own_get_js_set_same by exact deckValues_not_proto.
    split; [reflexivity|]; split.
    + intros es' aps' H; injection H as <- <-; exact M.
    + intro H; exfalso; exact (H es aps eq_refl).
  - injection E as <-; exists [].
    rewrite own_get_js_set_other by exact deckValues_neq_revealed;
      rewrite own_get_js_set_same by exact deckValues_not_proto.
    split; [reflexivity|]; split; [intros es aps H; discriminate|reflexivity].
Qed.

Lemma resolveDeck_nonempty dt c : resolveDeck dt c <> [].
Proof.
  destruct dt; simpl; try discriminate.
  match goal with |- (if ?b then ?d else _) <> [] => destruct b eqn:L end; [|discriminate].
  intro E; rewrite E in L; discriminate.
Qed.

Lemma presets_distinct : NoDup PRESET_fibonacci /\ NoDup PRESET_numeric.
Proof.
  split; vm_compute; repeat constructor; simpl; intuition discriminate.
Qed.

(** C8 fails: a custom deck keeps a repeated card, and a stored room whose
    [deckValues] is not an array is loaded with the empty deck. *)
Lemma deck_values_repeated_or_empty :
  (exists id s' room,
     createRoom repeated_card_options demo_env empty_store = Ok (id, s') /\
     own_get id (rooms s') = Some room /\
     r_deckValues room = [js "1"; js "1"; js "2"] /\
     ~ NoDup (r_deckValues room)) /\
  loadRooms true (ItemParsed stored_room_without_deck) =
    VObj [(js "R", VObj [(js "deckValues", VArr [] []); (js "revealed", VBool true)])].
Proof.
  split; [|vm_compute; reflexivity].
  destruct (createRoom_new_room repeated_card_options demo_env empty_store) as (id & s' & C & G).
  exists id, s', (new_room id repeated_card_options (env_now demo_env)).
  split; [exact C|]; split; [exact G|].
  assert (Hd : r_deckValues (new_room id repeated_card_options (env_now demo_env)) = [js "1"; js "1"; js "2"])
    by (vm_compute; reflexivity).
  split; [exact Hd|].
  rewrite Hd; intro H; inversion H as [|x l Hx Hl]; apply Hx; left; reflexivity.
Qed.

(** C8 as the code has it: a room created by [createRoom] has the deck
    [resolveDeck(deckType, customDeck)], which is never empty and has
    distinct values for the two presets (a custom deck keeps repeated
    entries); a room object loaded from storage gets [deckValues] = its
    stored array with every element converted by [String], or the empty
    array when the stored field is not an array. *)
Theorem deck_values_created_and_loaded :
  (forall options env s,
     exists id s' room,
       createRoom options env s = Ok (id, s') /\
       own_get id (rooms s') = Some room /\
       r_deckValues room = resolveDeck (opt_deckType options) (opt_customDeck options) /\
       r_deckValues room <> [] /\
       (opt_deckType options <> Custom -> NoDup (r_deckValues room))) /\
  (forall stored loaded R fields fields',
     loadRooms true (ItemParsed (VObj stored)) = VObj loaded ->
     own_get R stored = Some (VObj fields) ->
     own_get R loaded = Some (VObj fields') ->
     exists ds,
       own_get (js "deckValues") fields' = Some (VArr (map VStr ds) []) /\
       (forall es aps, own_get (js "deckValues") fields = Some (VArr es aps) ->
                       map_opt js_String es = Some ds) /\
       ((forall es aps, own_get (js "deckValues") fields <> Some (VArr es aps)) -> ds = [])).
Proof.
  split.
  - intros options env s.
    destruct (createRoom_new_room options env s) as (id & s' & C & G).
    exists id, s', (new_room id options (env_now env)); split; [exact C|]; split; [exact G|].
    split; [reflexivity|]; split; [apply resolveDeck_nonempty|].
    simpl; destruct (opt_deckType options); intro H; [apply presets_distinct|apply presets_distinct|].
    exfalso; apply H; reflexivity.
  - intros stored loaded R fields fields' L Gs Gl.
    unfold loadRooms in L; cbn [negb] in L; destruct (sanitize_entries stored) as [ps'|] eqn:S.
    + injection L as <-.
      destruct (sanitize_entries_get _ _ _ _ S Gs) as (v' & Gv & Sv).
      rewrite Gl in Gv; injection Gv as <-.
      simpl in Sv; destruct (sanitize_props fields) as [f|] eqn:SP; [|discriminate].
      injection Sv as <-; exact (sanitize_props_deck _ _ SP).
    + injection L as <-; discriminate.
Qed.

(** ** Further properties of the program *)

(** *** Names that no object inherits *)

Lemma proto_lookup_safe pol k : safe_id k = true -> proto_lookup pol k = None.
Proof.
  unfold safe_id, proto_lookup; intro H; apply andb_true_iff in H as [H1 H2].
  apply negb_true_iff in H1, H2; rewrite H1, H2, andb_false_r; reflexivity.
Qed.

Lemma js_get_safe {A} pol k (o : obj A) :
  safe_id k = true -> js_get pol k o = match own_get k o with Some v => LOwn v | None => LUndef end.
Proof. intro H; unfold js_get; rewrite (proto_lookup_safe pol k H); reflexivity. Qed.

Lemma js_in_safe {A} pol k (o : obj A) : safe_id k = true -> js_in pol k o = own_has k o.
Proof. intro H; unfold js_in, own_has; rewrite (js_get_safe pol k o H); destruct (own_get k o); reflexivity. Qed.

Lemma safe_not_proto k : safe_id k = true -> k <> js "__proto__".
Proof. intros H E; subst; vm_compute in H; discriminate. Qed.

Lemma jsstr_eqb_neq a b : jsstr_eqb a b = false -> a <> b.
Proof. intros E H; subst; rewrite jsstr_eqb_refl in E; discriminate. Qed.

Section MoreObjects.
Context {A : Type}.
Implicit Types (o : obj A) (k : jsstr) (v : A).

Lemma own_update_keys k v o : map fst (own_update k v o) = map fst o.
Proof.
  induction o as [|[k' v'] t IH]; simpl; [reflexivity|].
  destruct (jsstr_eqb k k'); simpl; [reflexivity|rewrite IH; reflexivity].
Qed.

Lemma js_set_keys_old k' k v o : In k' (map fst o) -> In k' (map fst (js_set k v o)).
Proof.
  intro H; unfold js_set.
  destruct (own_has k o); [rewrite own_update_keys; exact H|].
  destruct (jsstr_eqb k (js "__proto__")); [exact H|].
  rewrite map_app, in_app_iff; left; exact H.
Qed.

Lemma js_set_keys_new k v o : k <> js "__proto__" -> In k (map fst (js_set k v o)).
Proof. intro H; apply own_has_keys; unfold own_has; rewrite own_get_js_set_same by exact H; reflexivity. Qed.

Lemma js_set_keys_inv k' k v o : In k' (map fst (js_set k v o)) -> In k' (map fst o) \/ k' = k.
Proof.
  unfold js_set.
  destruct (own_has k o); [rewrite own_update_keys; tauto|].
  destruct (jsstr_eqb k (js "__proto__")); [tauto|].
  rewrite map_app, in_app_iff; simpl; intros [H|[H|[]]]; [left; exact H|right; congruence].
Qed.

Lemma js_set_own_keys k v o : own_has k o = true -> map fst (js_set k v o) = map fst o.
Proof. intro H; rewrite js_set_own by exact H; apply own_update_keys. Qed.

Lemma js_set_fresh k v o : own_has k o = false -> k <> js "__proto__" -> js_set k v o = o ++ [(k, v)].
Proof. intros H P; unfold js_set; rewrite H, (jsstr_eqb_false _ _ P); reflexivity. Qed.

Lemma own_get_js_delete_other k k' o : k <> k' -> own_get k' (js_delete k o) = own_get k' o.
Proof.
  intro Hne; unfold js_delete; induction o as [|[k1 v1] t IH]; simpl; [reflexivity|].
  destruct (jsstr_eqb k k1) eqn:E; simpl.
  - apply jsstr_eqb_true in E; subst. rewrite (jsstr_eqb_false k' k1) by congruence; exact IH.
  - rewrite IH; reflexivity.
Qed.

Lemma own_update_same_value k v o : own_get k o = Some v -> own_update k v o = o.
Proof.
  induction o as [|[k' v'] t IH]; simpl; [discriminate|].
  destruct (jsstr_eqb k k'); [intros [= ->]; reflexivity|intro G; rewrite (IH G); reflexivity].
Qed.

Lemma js_set_same_value k v o : own_get k o = Some v -> js_set k v o = o.
Proof.
  intro G; rewrite js_set_own by exact (own_has_of_get _ _ _ G); apply own_update_same_value; exact G.
Qed.

Lemma js_keys_nil o : js_keys o = [] -> o = [].
Proof.
  destruct o as [|[k v] t]; [reflexivity|]. intro E.
  assert (H : In k (js_keys ((k, v) :: t))) by (apply in_js_keys; left; reflexivity).
  rewrite E in H; destruct H.
Qed.

End MoreObjects.

(** *** The room invariant under safe ids *)


Lemma room_invariant_spec r :
  room_invariant r = true <->
  (forall k, In k (map fst (r_participants r)) -> own_has k (r_votes r) = true) /\
  (r_participants r <> [] -> own_has (r_hostId r) (r_participants r) = true).
Proof.
  unfold room_invariant; rewrite andb_true_iff, forallb_forall.
  destruct (r_participants r) as [|x l]; simpl.
  - split; [intros [H _]; split; [intros k []|congruence]|intros [H _]; split; [intros k []|reflexivity]].
  - split; intros [H1 H2]; split; auto; [apply H2; discriminate].
Qed.

Lemma wellformed_intro r :
  (forall k, In k (map fst (r_participants r)) -> own_has k (r_votes r) = true) ->
  own_has (r_hostId r) (r_participants r) = true -> room_wellformed r.
Proof.
  intros H1 H2; split; [apply room_invariant_spec; split; auto|].
  unfold participants_nonempty; intro E; rewrite E in H2; discriminate.
Qed.

Lemma wellformed_votes r k : room_wellformed r -> In k (map fst (r_participants r)) -> own_has k (r_votes r) = true.
Proof. intros [H _]; apply room_invariant_spec in H; apply H. Qed.

Lemma wellformed_host r : room_wellformed r -> own_has (r_hostId r) (r_participants r) = true.
Proof. intros [H N]; apply room_invariant_spec in H; apply H, N. Qed.

Section SafeRuns.

Let T := fun kv : jsstr * RoomState => room_wellformed (snd kv).

Ltac safe_room Hr :=
  rewrite (js_get_safe _ _ _ Hr); let G := fresh "G" in
  destruct (own_get _ _) as [?room|] eqn:G;
  [|intro E; inversion E; subst; assumption].

Ltac room_inv H G :=
  let I := fresh "I" in
  pose proof (Forall_own_get room_wellformed _ _ _ H G) as I.

Lemma joinRoom_mutator_inv roomId profile draft pol draft' pol' :
  safe_id roomId = true -> safe_id (prof_id profile) = true ->
  Forall T draft -> joinRoom_mutator roomId profile draft pol = Ok (draft', pol') -> Forall T draft'.
Proof.
  intros Hr Hp H; unfold joinRoom_mutator; safe_room Hr.
  room_inv H G; rewrite (js_in_safe _ _ _ Hp); simpl.
  set (pid := prof_id profile) in *.
  set (p := mkParticipant _ _ _ _).
  intro E; inversion E; subst; clear E.
  apply (Forall_js_set room_wellformed); [exact H|].
  assert (Hv : forall k, In k (map fst (js_set pid p (r_participants room))) ->
                 own_has k (if own_has pid (r_votes room) then r_votes room
                            else js_set pid None (r_votes room)) = true).
  { intros k Hk; apply js_set_keys_inv in Hk as [Hk|Hk].
    - pose proof (wellformed_votes room k I Hk) as Hv.
      destruct (own_has pid (r_votes room)); [exact Hv|].
      apply own_has_keys, js_set_keys_old, own_has_keys, Hv.
    - subst k. destruct (own_has pid (r_votes room)) eqn:O; [exact O|].
      apply own_has_keys, js_set_keys_new, safe_not_proto, Hp. }
  assert (Hh : own_has (r_hostId room) (js_set pid p (r_participants room)) = true).
  { apply own_has_keys, js_set_keys_old, own_has_keys, wellformed_host, I. }
  destruct (own_has pid (r_votes room)); apply wellformed_intro; simpl; auto.
Qed.

Lemma leaveRoom_mutator_inv roomId pid draft pol draft' pol' :
  safe_id roomId = true ->
  Forall T draft -> leaveRoom_mutator roomId pid draft pol = Ok (draft', pol') -> Forall T draft'.
Proof.
  intros Hr H; unfold leaveRoom_mutator; safe_room Hr.
  room_inv H G; simpl.
  destruct (js_keys (js_delete pid (r_participants room))) as [|first rest] eqn:K.
  { intro E; inversion E; subst; apply (Forall_js_delete room_wellformed); exact H. }
  intro E; inversion E; subst; clear E.
  apply (Forall_js_set room_wellformed); [exact H|].
  set (room1 := with_votes (with_participants room (js_delete pid (r_participants room)))
                           (js_delete pid (r_votes room))).
  assert (Hv : forall k, In k (map fst (r_participants room1)) -> own_has k (r_votes room1) = true).
  { simpl; intros k Hk; apply in_js_delete in Hk as [Hk Hne].
    apply own_has_keys, in_js_delete; split; [|exact Hne].
    apply own_has_keys, (wellformed_votes room k I Hk). }
  assert (Hh : own_has (if jsstr_eqb (r_hostId room1) pid then first else r_hostId room1)
                       (r_participants room1) = true).
  { destruct (jsstr_eqb (r_hostId room1) pid) eqn:Eh.
    - apply own_has_keys, in_js_keys; simpl; rewrite K; left; reflexivity.
    - apply jsstr_eqb_neq in Eh. apply own_has_keys; simpl; apply in_js_delete.
      split; [apply own_has_keys, wellformed_host, I|simpl in Eh; congruence]. }
  unfold room1 in *; simpl in *.
  destruct (jsstr_eqb (r_hostId room) pid); simpl; destruct (r_revealed room && _);
    apply wellformed_intro; simpl; auto.
Qed.

Lemma own_has_same_keys {A B} k (o : obj A) (o' : obj B) :
  map fst o' = map fst o -> own_has k o' = own_has k o.
Proof.
  intro E; destruct (own_has k o) eqn:H.
  - apply own_has_keys; rewrite E; apply own_has_keys, H.
  - destruct (own_has k o') eqn:H'; [|reflexivity].
    apply own_has_keys in H'; rewrite E in H'; apply own_has_keys in H'; congruence.
Qed.

Lemma wellformed_same_keys r r' :
  room_wellformed r -> map fst (r_participants r') = map fst (r_participants r) ->
  map fst (r_votes r') = map fst (r_votes r) -> r_hostId r' = r_hostId r -> room_wellformed r'.
Proof.
  intros I Ep Ev Eh; apply wellformed_intro.
  - intros k Hk; rewrite (own_has_same_keys _ _ _ Ev); rewrite Ep in Hk; exact (wellformed_votes r k I Hk).
  - rewrite Eh, (own_has_same_keys _ _ _ Ep); exact (wellformed_host r I).
Qed.

Lemma updateParticipantProfile_mutator_inv roomId pid u draft pol draft' pol' :
  safe_id roomId = true -> safe_id pid = true ->
  Forall T draft -> updateParticipantProfile_mutator roomId pid u draft pol = Ok (draft', pol') ->
  Forall T draft'.
Proof.
  intros Hr Hp H; unfold updateParticipantProfile_mutator; safe_room Hr.
  room_inv H G; rewrite (js_get_safe _ _ _ Hp).
  destruct (own_get pid (r_participants room)) as [p|] eqn:Gp; intro E; inversion E; subst; [|exact H].
  apply (Forall_js_set room_wellformed); [exact H|].
  apply (wellformed_same_keys room); [exact I| |reflexivity|reflexivity].
  simpl; apply js_set_own_keys, (own_has_of_get _ _ _ Gp).
Qed.

Lemma submitVote_mutator_inv roomId pid v draft pol draft' pol' :
  safe_id roomId = true -> safe_id pid = true ->
  Forall T draft -> submitVote_mutator roomId pid v draft pol = Ok (draft', pol') -> Forall T draft'.
Proof.
  intros Hr Hp H; unfold submitVote_mutator; safe_room Hr.
  room_inv H G; rewrite (js_in_safe _ _ _ Hp).
  destruct (own_has pid (r_participants room)) eqn:O; simpl; intro E; inversion E; subst; [|exact H].
  apply (Forall_js_set room_wellformed); [exact H|].
  assert (Ov : own_has pid (r_votes room) = true) by (apply (wellformed_votes room pid I), own_has_keys, O).
  destruct v; apply (wellformed_same_keys room); simpl; auto; apply js_set_own_keys, Ov.
Qed.

Lemma revealVotes_mutator_inv roomId draft pol draft' pol' :
  safe_id roomId = true ->
  Forall T draft -> revealVotes_mutator roomId draft pol = Ok (draft', pol') -> Forall T draft'.
Proof.
  intros Hr H; unfold revealVotes_mutator; safe_room Hr.
  room_inv H G; intro E; inversion E; subst.
  apply (Forall_js_set room_wellformed); [exact H|apply (wellformed_same_keys room); auto].
Qed.

Lemma map_fst_reset {B} (vs : obj B) :
  map fst (map (fun kv => (fst kv, @None jsstr)) vs) = map fst vs.
Proof. rewrite map_map; reflexivity. Qed.

Lemma resetVotes_mutator_inv roomId draft pol draft' pol' :
  safe_id roomId = true ->
  Forall T draft -> resetVotes_mutator roomId draft pol = Ok (draft', pol') -> Forall T draft'.
Proof.
  intros Hr H; unfold resetVotes_mutator; safe_room Hr.
  room_inv H G; intro E; inversion E; subst.
  apply (Forall_js_set room_wellformed); [exact H|apply (wellformed_same_keys room); auto].
  apply map_fst_reset.
Qed.

Lemma transferHost_mutator_inv roomId h draft pol draft' pol' :
  safe_id roomId = true -> safe_id h = true ->
  Forall T draft -> transferHost_mutator roomId h draft pol = Ok (draft', pol') -> Forall T draft'.
Proof.
  intros Hr Hh H; unfold transferHost_mutator; safe_room Hr.
  room_inv H G; rewrite (js_in_safe _ _ _ Hh).
  destruct (own_has h (r_participants room)) eqn:O; simpl; intro E; inversion E; subst; [|exact H].
  apply (Forall_js_set room_wellformed); [exact H|].
  apply wellformed_intro; simpl; [intros k; apply (wellformed_votes room k I)|exact O].
Qed.

Lemma new_room_inv id options createdAt : room_wellformed (new_room id options createdAt).
Proof.
  apply wellformed_intro; simpl.
  - intros k [<-|[]]; unfold own_has; simpl; rewrite jsstr_eqb_refl; reflexivity.
  - unfold own_has; simpl; rewrite jsstr_eqb_refl; reflexivity.
Qed.

Lemma updateRooms_Forall (Q : jsstr * RoomState -> Prop) (m : mutator) s s' :
  (forall draft pol draft' pol', Forall Q draft -> m draft pol = Ok (draft', pol') -> Forall Q draft') ->
  Forall Q (rooms s) -> updateRooms m s = Ok s' -> Forall Q (rooms s').
Proof.
  unfold updateRooms; intros Hm Hs.
  destruct (m (rooms s) (proto_revealed s)) as [[d p]|] eqn:E; intro R; inversion R; subst.
  simpl; exact (Hm _ _ _ _ Hs E).
Qed.

Lemma state_after_inv o s :
  safe_operation o = true -> Forall T (rooms s) -> Forall T (rooms (state_after o s)).
Proof.
  intros Ho Hs; unfold state_after.
  destruct (run_operation o s) as [s'|] eqn:R; [|exact Hs].
  destruct o; unfold run_operation in R; simpl in Ho;
    repeat match goal with H : _ && _ = true |- _ => apply andb_true_iff in H as [? ?] end.
  - unfold createRoom in R.
    destruct (updateRooms _ s) as [s1|] eqn:U; inversion R; subst.
    refine (updateRooms_Forall _ _ _ _ _ Hs U).
    intros d p d' p' Hd E; inversion E; subst.
    apply (Forall_js_set room_wellformed); [exact Hd|apply new_room_inv].
  - unfold joinRoom in R.
    destruct (js_get _ roomId (rooms s)); try (inversion R; subst; exact Hs);
      destruct (updateRooms _ s) as [s1|] eqn:U; inversion R; subst;
      refine (updateRooms_Forall _ _ _ _ _ Hs U); intros d p d' p';
      apply joinRoom_mutator_inv; assumption.
  - unfold leaveRoom in R.
    destruct (js_get _ roomId (rooms s)); try (inversion R; subst; exact Hs);
      refine (updateRooms_Forall _ _ _ _ _ Hs R); intros d p d' p';
      apply leaveRoom_mutator_inv; assumption.
  - refine (updateRooms_Forall _ _ _ _ _ Hs R); intros d p d' p';
      apply updateParticipantProfile_mutator_inv; assumption.
  - refine (updateRooms_Forall _ _ _ _ _ Hs R); intros d p d' p';
      apply submitVote_mutator_inv; assumption.
  - refine (updateRooms_Forall _ _ _ _ _ Hs R); intros d p d' p';
      apply revealVotes_mutator_inv; assumption.
  - refine (updateRooms_Forall _ _ _ _ _ Hs R); intros d p d' p';
      apply resetVotes_mutator_inv; assumption.
  - unfold removeParticipant, leaveRoom in R.
    destruct (js_get _ roomId (rooms s)); try (inversion R; subst; exact Hs);
      refine (updateRooms_Forall _ _ _ _ _ Hs R); intros d p d' p';
      apply leaveRoom_mutator_inv; assumption.
  - refine (updateRooms_Forall _ _ _ _ _ Hs R); intros d p d' p';
      apply transferHost_mutator_inv; assumption.
Qed.

End SafeRuns.

(** X1: every room of a state reached by calls with safe ids satisfies the
    room invariant: every participant has a vote entry, and the host is a
    participant (of a non-empty room). *)
Theorem safe_runs_keep_room_invariant s :
  safe_reachable s ->
  Forall (fun kv => room_invariant (snd kv) = true /\ r_participants (snd kv) <> []) (rooms s).
Proof.
  induction 1 as [|o s Ho Hs IH]; [constructor|].
  exact (state_after_inv o s Ho IH).
Qed.

(** *** Each call changes one room *)


Lemma touches_only_get roomId draft draft' k :
  touches_only roomId draft draft' -> k <> roomId -> own_get k draft' = own_get k draft.
Proof.
  intros [->|[[r ->]| ->]] Hk; [reflexivity| |].
  - apply own_get_js_set_other; congruence.
  - apply own_get_js_delete_other; congruence.
Qed.

Ltac shape m :=
  intros draft pol draft' pol'; unfold m;
  repeat match goal with
         | |- context [match ?x with _ => _ end] => destruct x
         end;
  intro E; inversion E; subst; unfold touches_only; eauto.

Lemma joinRoom_mutator_shape roomId profile : forall draft pol draft' pol',
  joinRoom_mutator roomId profile draft pol = Ok (draft', pol') -> touches_only roomId draft draft'.
Proof. shape joinRoom_mutator. Qed.

Lemma leaveRoom_mutator_shape roomId pid : forall draft pol draft' pol',
  leaveRoom_mutator roomId pid draft pol = Ok (draft', pol') -> touches_only roomId draft draft'.
Proof. shape leaveRoom_mutator. Qed.

Lemma updateParticipantProfile_mutator_shape roomId pid u : forall draft pol draft' pol',
  updateParticipantProfile_mutator roomId pid u draft pol = Ok (draft', pol') -> touches_only roomId draft draft'.
Proof. shape updateParticipantProfile_mutator. Qed.

Lemma submitVote_mutator_shape roomId pid v : forall draft pol draft' pol',
  submitVote_mutator roomId pid v draft pol = Ok (draft', pol') -> touches_only roomId draft draft'.
Proof. shape submitVote_mutator. Qed.

Lemma revealVotes_mutator_shape roomId : forall draft pol draft' pol',
  revealVotes_mutator roomId draft pol = Ok (draft', pol') -> touches_only roomId draft draft'.
Proof. shape revealVotes_mutator. Qed.

Lemma resetVotes_mutator_shape roomId : forall draft pol draft' pol',
  resetVotes_mutator roomId draft pol = Ok (draft', pol') -> touches_only roomId draft draft'.
Proof. shape resetVotes_mutator. Qed.

Lemma transferHost_mutator_shape roomId h : forall draft pol draft' pol',
  transferHost_mutator roomId h draft pol = Ok (draft', pol') -> touches_only roomId draft draft'.
Proof. shape transferHost_mutator. Qed.

Lemma updateRooms_shape roomId (m : mutator) s s' :
  (forall draft pol draft' pol', m draft pol = Ok (draft', pol') -> touches_only roomId draft draft') ->
  updateRooms m s = Ok s' -> touches_only roomId (rooms s) (rooms s').
Proof.
  unfold updateRooms; intro Hm.
  destruct (m (rooms s) (proto_revealed s)) as [[d p]|] eqn:E; intro R; inversion R; subst.
  exact (Hm _ _ _ _ E).
Qed.

Lemma run_operation_shape o s s' :
  run_operation o s = Ok s' -> touches_only (op_target o) (rooms s) (rooms s').
Proof.
  destruct o; simpl; intro R.
  - inversion R; subst; right; left; eexists; reflexivity.
  - unfold joinRoom in R.
    destruct (js_get _ roomId (rooms s)); try (inversion R; subst; left; reflexivity);
      destruct (updateRooms _ s) as [s1|] eqn:U; inversion R; subst;
      exact (updateRooms_shape _ _ _ _ (joinRoom_mutator_shape roomId profile) U).
  - unfold leaveRoom in R.
    destruct (js_get _ roomId (rooms s)); try (inversion R; subst; left; reflexivity);
      exact (updateRooms_shape _ _ _ _ (leaveRoom_mutator_shape roomId participantId) R).
  - exact (updateRooms_shape _ _ _ _ (updateParticipantProfile_mutator_shape roomId participantId updates) R).
  - exact (updateRooms_shape _ _ _ _ (submitVote_mutator_shape roomId participantId value) R).
  - exact (updateRooms_shape _ _ _ _ (revealVotes_mutator_shape roomId) R).
  - exact (updateRooms_shape _ _ _ _ (resetVotes_mutator_shape roomId) R).
  - unfold removeParticipant, leaveRoom in R.
    destruct (js_get _ roomId (rooms s)); try (inversion R; subst; left; reflexivity);
      exact (updateRooms_shape _ _ _ _ (leaveRoom_mutator_shape roomId participantId) R).
  - exact (updateRooms_shape _ _ _ _ (transferHost_mutator_shape roomId newHostId) R).
Qed.

(** X2: a call changes at most the room it names (for [createRoom], the room
    under the generated id): every other room id maps to the same room. *)
Theorem operation_changes_only_its_room o s s' k :
  run_operation o s = Ok s' -> k <> op_target o -> own_get k (rooms s') = own_get k (rooms s).
Proof. intros R Hk; exact (touches_only_get _ _ _ _ (run_operation_shape o s s' R) Hk). Qed.

(** *** Single calls *)

Lemma js_set_of_own {A} k v (o : obj A) w :
  own_get k o = Some w -> js_set k v o = own_update k v o.
Proof. intro G; apply js_set_own, (own_has_of_get _ _ _ G). Qed.

Lemma store_eta s : mkStore (rooms s) (proto_revealed s) = s.
Proof. destruct s; reflexivity. Qed.

(** X4: [createRoom] stores a room with the host as its only participant,
    a [null] vote for the host, [revealed = false], [createdAt] from the
    clock and the generated id; the room is appended to the table, or
    replaces in place a room already stored under the same id. *)
Theorem createRoom_stores_new_room options env s :
  let id := generateRoomId (env_random36 env) (env_now_id env) in
  let host := opt_host options in
  exists s' room,
    createRoom options env s = Ok (id, s') /\
    own_get id (rooms s') = Some room /\
    r_id room = id /\
    r_hostId room = prof_id host /\
    r_participants room =
      [(prof_id host, mkParticipant (Some (prof_id host)) (Some (prof_name host))
                                    (Some (prof_avatarColor host)) (Some (prof_joinedAt host)))] /\
    r_votes room = [(prof_id host, None)] /\
    r_revealed room = false /\
    r_createdAt room = env_now env /\
    rooms s' = (if own_has id (rooms s) then own_update id room (rooms s) else rooms s ++ [(id, room)]) /\
    proto_revealed s' = proto_revealed s.
Proof.
  intros id host.
  set (room := new_room id options (env_now env)).
  exists (mkStore (js_set id room (rooms s)) (proto_revealed s)), room.
  split; [reflexivity|]. split; [simpl; apply own_get_js_set_same, generateRoomId_not_proto|].
  do 6 (split; [reflexivity|]).
  split; [|reflexivity]. simpl; unfold js_set.
  destruct (own_has id (rooms s)); [reflexivity|].
  assert (Np : id <> js "__proto__") by apply generateRoomId_not_proto.
  rewrite (jsstr_eqb_false _ _ Np); reflexivity.
Qed.

(** X5: joining a room as a new participant (an id that is not a name
    objects inherit) appends the participant with the profile's fields and
    [joinedAt], adds a [null] vote unless a vote entry exists, keeps host,
    deck and [revealed], and returns the updated room. *)
Theorem joinRoom_adds_participant s roomId room profile :
  own_get roomId (rooms s) = Some room ->
  safe_id (prof_id profile) = true ->
  own_has (prof_id profile) (r_participants room) = false ->
  exists room' s',
    joinRoom roomId profile s = Ok (JoinSuccess (LOwn room'), s') /\
    rooms s' = own_update roomId room' (rooms s) /\
    r_participants room' =
      r_participants room ++
        [(prof_id profile, mkParticipant (Some (prof_id profile)) (Some (prof_name profile))
                                         (Some (prof_avatarColor profile)) (Some (prof_joinedAt profile)))] /\
    r_votes room' = (if own_has (prof_id profile) (r_votes room) then r_votes room
                     else r_votes room ++ [(prof_id profile, None)]) /\
    r_hostId room' = r_hostId room /\
    r_revealed room' = r_revealed room /\
    r_deckValues room' = r_deckValues room.
Proof.
  intros G Hp Hn.
  assert (Gn : own_get (prof_id profile) (r_participants room) = None).
  { unfold own_has in Hn; destruct (own_get (prof_id profile) (r_participants room));
      [discriminate|reflexivity]. }
  pose proof (safe_not_proto _ Hp) as Np.
  set (p := mkParticipant (Some (prof_id profile)) (Some (prof_name profile))
                          (Some (prof_avatarColor profile)) (Some (prof_joinedAt profile))).
  set (room1 := with_participants room (r_participants room ++ [(prof_id profile, p)])).
  set (room2 := if own_has (prof_id profile) (r_votes room) then room1
                else with_votes room1 (r_votes room ++ [(prof_id profile, None)])).
  assert (Hr : own_has roomId (rooms s) = true) by exact (own_has_of_get _ _ _ G).
  assert (Hm : joinRoom_mutator roomId profile (rooms s) (proto_revealed s)
               = Ok (own_update roomId room2 (rooms s), proto_revealed s)).
  { unfold joinRoom_mutator; rewrite (own_get_js_get _ _ _ _ G), (js_get_safe _ _ _ Hp), Gn.
    rewrite (js_set_fresh _ _ _ Hn Np). simpl. rewrite (js_in_safe _ _ _ Hp). simpl.
    unfold room2; destruct (own_has (prof_id profile) (r_votes room)) eqn:Ov.
    - rewrite (js_set_own _ _ _ Hr); reflexivity.
    - rewrite (js_set_fresh _ _ _ Ov Np), (js_set_own _ _ _ Hr); reflexivity. }
  exists room2, (mkStore (own_update roomId room2 (rooms s)) (proto_revealed s)).
  split.
  { unfold joinRoom; rewrite (own_get_js_get _ _ _ _ G).
    unfold updateRooms; rewrite Hm; simpl.
    rewrite own_get_js_get with (v := room2); [reflexivity|].
    apply own_get_update_same; exact Hr. }
  split; [reflexivity|].
  unfold room2; destruct (own_has (prof_id profile) (r_votes room)); simpl;
    repeat split; reflexivity.
Qed.

(** X6: every call naming a room that is not in the table (and whose id is
    not a name objects inherit) leaves the state as it is; [joinRoom]
    returns the failure ['Sala não encontrada.']. *)
Theorem missing_room_calls_change_nothing s roomId pid profile u v :
  safe_id roomId = true -> own_has roomId (rooms s) = false ->
  joinRoom roomId profile s = Ok (JoinFailure room_not_found, s) /\
  leaveRoom roomId pid s = Ok s /\
  removeParticipant roomId pid s = Ok s /\
  updateParticipantProfile roomId pid u s = Ok s /\
  submitVote roomId pid v s = Ok s /\
  revealVotes roomId s = Ok s /\
  resetVotes roomId s = Ok s /\
  transferHost roomId pid s = Ok s.
Proof.
  intros Hr Hn.
  assert (Gn : own_get roomId (rooms s) = None).
  { unfold own_has in Hn; destruct (own_get roomId (rooms s)); [discriminate|reflexivity]. }
  unfold removeParticipant, joinRoom, leaveRoom, updateParticipantProfile, submitVote,
    revealVotes, resetVotes, transferHost, updateRooms,
    updateParticipantProfile_mutator, submitVote_mutator, revealVotes_mutator,
    resetVotes_mutator, transferHost_mutator.
  rewrite !(js_get_safe _ _ _ Hr), Gn, store_eta.
  repeat split.
Qed.

(** X7: a participant who is not the host leaving a room where others
    remain: the participant and its vote entry are deleted, the host and
    [revealed] stay, and the room keeps its place in the table. *)
Theorem leaveRoom_other_participant s roomId room pid :
  own_get roomId (rooms s) = Some room ->
  r_hostId room <> pid ->
  js_delete pid (r_participants room) <> [] ->
  exists room',
    leaveRoom roomId pid s = Ok (mkStore (own_update roomId room' (rooms s)) (proto_revealed s)) /\
    r_participants room' = js_delete pid (r_participants room) /\
    r_votes room' = js_delete pid (r_votes room) /\
    r_hostId room' = r_hostId room /\
    r_revealed room' = r_revealed room.
Proof.
  intros G Hh Hne.
  destruct (js_keys (js_delete pid (r_participants room))) as [|first rest] eqn:K;
    [apply js_keys_nil in K; contradiction|].
  set (room1 := with_votes (with_participants room (js_delete pid (r_participants room)))
                           (js_delete pid (r_votes room))).
  exists room1; split; [|repeat split].
  unfold leaveRoom; rewrite (own_get_js_get _ _ _ _ G).
  unfold updateRooms, leaveRoom_mutator; rewrite (own_get_js_get _ _ _ _ G).
  simpl; rewrite K, (jsstr_eqb_false _ _ Hh).
  rewrite (js_set_of_own _ _ _ _ G).
  simpl; rewrite andb_false_r; reflexivity.
Qed.

(** X8: [leaveRoom] never changes [revealed] of a room it keeps: the branch
    that would reset it needs an empty [remainingIds], which has already
    deleted the room. *)
Theorem leaveRoom_keeps_revealed s roomId pid room s' room' :
  own_get roomId (rooms s) = Some room ->
  leaveRoom roomId pid s = Ok s' ->
  own_get roomId (rooms s') = Some room' ->
  r_revealed room' = r_revealed room.
Proof.
  intros G L G'.
  unfold leaveRoom in L; rewrite (own_get_js_get _ _ _ _ G) in L.
  unfold updateRooms, leaveRoom_mutator in L; rewrite (own_get_js_get _ _ _ _ G) in L.
  simpl in L; destruct (js_keys (js_delete pid (r_participants room))) as [|first rest] eqn:K.
  - inversion L; subst; simpl in G'; rewrite own_get_js_delete_same in G'; discriminate.
  - inversion L; subst; simpl in G'.
    rewrite (js_set_of_own _ _ _ _ G), own_get_update_same in G' by exact (own_has_of_get _ _ _ G).
    injection G' as <-.
    destruct (jsstr_eqb _ _); simpl; rewrite andb_false_r; reflexivity.
Qed.

(** X9: a vote of a participant (an own key of [participants] other than
    ["__proto__"]) is recorded as given; [null] also sets [revealed] to
    false, a value keeps it; participants and host are untouched. *)
Theorem submitVote_records_vote s roomId room pid value :
  own_get roomId (rooms s) = Some room ->
  own_has pid (r_participants room) = true ->
  pid <> js "__proto__" ->
  exists room',
    submitVote roomId pid value s = Ok (mkStore (own_update roomId room' (rooms s)) (proto_revealed s)) /\
    r_votes room' = js_set pid value (r_votes room) /\
    own_get pid (r_votes room') = Some value /\
    r_participants room' = r_participants room /\
    r_hostId room' = r_hostId room /\
    r_revealed room' = match value with None => false | Some _ => r_revealed room end.
Proof.
  intros G Hp Np.
  set (room1 := with_votes room (js_set pid value (r_votes room))).
  exists (match value with None => with_revealed room1 false | Some _ => room1 end).
  split.
  - unfold submitVote, updateRooms, submitVote_mutator; rewrite (own_get_js_get _ _ _ _ G).
    unfold own_has in Hp; destruct (own_get pid (r_participants room)) as [p|] eqn:Gp; [|discriminate].
    unfold js_in; rewrite (own_get_js_get _ _ _ _ Gp); simpl.
    rewrite (js_set_of_own _ _ _ _ G); destruct value; reflexivity.
  - destruct value; simpl; repeat split; apply own_get_js_set_same, Np.
Qed.

(** X10: [submitVote], [transferHost] and [updateParticipantProfile] with an
    id that is not a participant of the room (nor a name objects inherit)
    leave the state as it is. *)
Theorem non_participant_calls_change_nothing s roomId room pid u v :
  own_get roomId (rooms s) = Some room ->
  safe_id pid = true ->
  own_has pid (r_participants room) = false ->
  submitVote roomId pid v s = Ok s /\
  transferHost roomId pid s = Ok s /\
  updateParticipantProfile roomId pid u s = Ok s.
Proof.
  intros G Hp Hn.
  assert (Gn : own_get pid (r_participants room) = None).
  { unfold own_has in Hn; destruct (own_get pid (r_participants room)); [discriminate|reflexivity]. }
  unfold submitVote, transferHost, updateParticipantProfile, updateRooms,
    submitVote_mutator, transferHost_mutator, updateParticipantProfile_mutator.
  rewrite !(own_get_js_get _ _ _ _ G), !(js_in_safe _ _ _ Hp), (js_get_safe _ _ _ Hp), Gn, Hn.
  simpl; rewrite store_eta; repeat split.
Qed.


Lemma proto_lookup_IObj pol pol' k : proto_lookup pol k = Some IObj -> proto_lookup pol' k = Some IObj.
Proof.
  unfold proto_lookup; destruct (existsb _ _); [reflexivity|].
  destruct (pol && _); discriminate.
Qed.

Lemma js_get_IObj {A} pol pol' k (o : obj A) : js_get pol k o = LInh IObj -> js_get pol' k o = LInh IObj.
Proof.
  unfold js_get; destruct (own_get k o); [discriminate|].
  destruct (proto_lookup pol k) as [i|] eqn:P; [|discriminate]; intros [= ->].
  rewrite (proto_lookup_IObj pol pol' k P); reflexivity.
Qed.

(** X12: [resetVotes] on a room sets every vote entry to [null], keeping the
    entries' ids and order, sets [revealed] to false, and keeps
    participants and host. *)
Theorem resetVotes_clears_votes s roomId room :
  own_get roomId (rooms s) = Some room ->
  exists room',
    resetVotes roomId s = Ok (mkStore (own_update roomId room' (rooms s)) (proto_revealed s)) /\
    map fst (r_votes room') = map fst (r_votes room) /\
    Forall (fun kv => snd kv = None) (r_votes room') /\
    r_revealed room' = false /\
    r_participants room' = r_participants room /\
    r_hostId room' = r_hostId room.
Proof.
  intro G; eexists; split.
  - unfold resetVotes, updateRooms, resetVotes_mutator; rewrite (own_get_js_get _ _ _ _ G).
    rewrite (js_set_of_own _ _ _ _ G); reflexivity.
  - simpl; split; [apply map_fst_reset|]; split; [|repeat split].
    apply Forall_forall; intros x Hx; apply in_map_iff in Hx as (y & <- & _); reflexivity.
Qed.

(** X13: [transferHost] to a participant of the room makes it the host and
    changes nothing else. *)
Theorem transferHost_to_participant s roomId room h :
  own_get roomId (rooms s) = Some room ->
  own_has h (r_participants room) = true ->
  transferHost roomId h s = Ok (mkStore (own_update roomId (with_hostId room h) (rooms s)) (proto_revealed s)).
Proof.
  intros G Hh.
  unfold transferHost, updateRooms, transferHost_mutator; rewrite (own_get_js_get _ _ _ _ G).
  unfold own_has in Hh; destruct (own_get h (r_participants room)) as [p|] eqn:Gp; [|discriminate].
  unfold js_in; rewrite (own_get_js_get _ _ _ _ Gp); simpl.
  rewrite (js_set_of_own _ _ _ _ G); reflexivity.
Qed.

(** X14: [updateParticipantProfile] on a participant merges the given name
    and color into its record and keeps its [id] and [joinedAt], the order
    of the participants, the votes and the host. *)
Theorem updateParticipantProfile_merges s roomId room pid p u :
  own_get roomId (rooms s) = Some room ->
  own_get pid (r_participants room) = Some p ->
  exists room',
    updateParticipantProfile roomId pid u s = Ok (mkStore (own_update roomId room' (rooms s)) (proto_revealed s)) /\
    own_get pid (r_participants room') =
      Some (mkParticipant (p_id p)
                          (match upd_name u with Some n => n | None => p_name p end)
                          (match upd_avatarColor u with Some c => c | None => p_avatarColor p end)
                          (p_joinedAt p)) /\
    map fst (r_participants room') = map fst (r_participants room) /\
    r_votes room' = r_votes room /\
    r_hostId room' = r_hostId room.
Proof.
  intros G Gp; eexists; split.
  - unfold updateParticipantProfile, updateRooms, updateParticipantProfile_mutator.
    rewrite (own_get_js_get _ _ _ _ G), (own_get_js_get _ _ _ _ Gp).
    rewrite (js_set_of_own _ _ _ _ G); reflexivity.
  - simpl; rewrite (js_set_of_own _ _ _ _ Gp); split; [|split; [|split; reflexivity]].
    + apply own_get_update_same, (own_has_of_get _ _ _ Gp).
    + apply own_update_keys.
Qed.

(** *** Trimmed strings *)

Lemma edge_trim_start s : edge_not_ws (trim_start s) = true.
Proof.
  induction s as [|c t IH]; simpl; [reflexivity|].
  destruct (is_ws c) eqn:E; [exact IH|simpl; rewrite E; reflexivity].
Qed.

Lemma edge_rev_trim_start w : edge_not_ws (rev w) = true -> edge_not_ws (rev (trim_start w)) = true.
Proof.
  induction w as [|c t IH]; simpl; [reflexivity|].
  destruct (is_ws c); [|simpl; tauto].
  intro H; apply IH.
  destruct (rev t) as [|c' t'] eqn:R; [reflexivity|exact H].
Qed.

Lemma trim_start_edge s : edge_not_ws s = true -> trim_start s = s.
Proof. destruct s as [|c t]; simpl; [reflexivity|]. destruct (is_ws c); [discriminate|reflexivity]. Qed.

Lemma trim_is_trimmed s : is_trimmed (trim s) = true.
Proof.
  unfold is_trimmed, trim; apply andb_true_iff; split.
  - apply edge_rev_trim_start; rewrite rev_involutive; apply edge_trim_start.
  - rewrite rev_involutive; apply edge_trim_start.
Qed.

Lemma trimmed_trim t : is_trimmed t = true -> trim t = t.
Proof.
  unfold is_trimmed, trim; intro H; apply andb_true_iff in H as [H1 H2].
  rewrite (trim_start_edge t H1), (trim_start_edge _ H2), rev_involutive; reflexivity.
Qed.

Lemma trim_idem s : trim (trim s) = trim s.
Proof. apply trimmed_trim, trim_is_trimmed. Qed.

Lemma in_trim_start c s : In c (trim_start s) -> In c s.
Proof.
  induction s as [|c' t IH]; simpl; [tauto|].
  destruct (is_ws c'); [intro H; right; exact (IH H)|tauto].
Qed.

Lemma in_trim c s : In c (trim s) -> In c s.
Proof.
  unfold trim; intro H; apply in_rev in H; apply in_trim_start in H.
  apply in_rev in H; apply in_trim_start in H; exact H.
Qed.

(** *** The pieces of [split] *)

Lemma separator_match_pos s n : separator_match s = Some n -> (1 <= n)%nat.
Proof.
  destruct s as [|c t]; simpl; [discriminate|].
  destruct (if is_ws c then separator_match t else None); [intros [= <-]; lia|].
  destruct (is_deck_separator c); [intros [= <-]; lia|discriminate].
Qed.

Lemma separator_match_none c t : separator_match (c :: t) = None -> is_deck_separator c = false.
Proof.
  simpl; destruct (if is_ws c then separator_match t else None); [discriminate|].
  destruct (is_deck_separator c); [discriminate|reflexivity].
Qed.

Lemma split_go_no_separator fuel : forall piece s,
  (List.length s < fuel)%nat ->
  Forall (fun c => is_deck_separator c = false) piece ->
  Forall (fun x => Forall (fun c => is_deck_separator c = false) x) (split_go fuel piece s).
Proof.
  induction fuel as [|f IH]; intros piece s Hl Hp; [lia|].
  simpl; destruct s as [|c t].
  - constructor; [apply Forall_rev, Hp|constructor].
  - destruct (separator_match (c :: t)) as [n|] eqn:M.
    + constructor; [apply Forall_rev, Hp|].
      apply IH; [|constructor].
      pose proof (separator_match_pos _ _ M). rewrite length_skipn; cbn [List.length] in *; lia.
    + apply IH; [simpl in Hl; lia|].
      constructor; [exact (separator_match_none _ _ M)|exact Hp].
Qed.

Lemma parseCustomDeck_entry input v :
  In v (parseCustomDeck input) ->
  v <> [] /\ is_trimmed v = true /\ Forall (fun c => is_deck_separator c = false) v.
Proof.
  unfold parseCustomDeck; intro H.
  apply filter_In in H as [H Hn]; apply in_map_iff in H as (x & <- & Hx).
  split; [intro E; rewrite E in Hn; discriminate|].
  split; [apply trim_is_trimmed|].
  assert (Hall := split_go_no_separator (S (List.length input)) [] input ltac:(lia) (Forall_nil _)).
  rewrite Forall_forall in Hall; specialize (Hall x Hx).
  rewrite Forall_forall in Hall |- *; intros c Hc; exact (Hall c (in_trim c x Hc)).
Qed.

Lemma parseCustomDeck_fixed input :
  filter (fun v => negb (Nat.eqb (List.length v) 0)) (map trim (parseCustomDeck input)) = parseCustomDeck input.
Proof.
  assert (H : forall l, (forall v, In v l -> v <> [] /\ is_trimmed v = true) ->
            filter (fun v => negb (Nat.eqb (List.length v) 0)) (map trim l) = l).
  { induction l as [|v l IH]; intro Hl; simpl; [reflexivity|].
    destruct (Hl v (or_introl eq_refl)) as [Hv Ht].
    rewrite (trimmed_trim v Ht), IH by (intros w Hw; apply Hl; right; exact Hw).
    destruct v; [congruence|reflexivity]. }
  apply H; intros v Hv; destruct (parseCustomDeck_entry input v Hv) as [H1 [H2 _]]; auto.
Qed.

Lemma resolveDeck_parsed input :
  resolveDeck Custom (Some (parseCustomDeck input)) =
    match parseCustomDeck input with [] => [js "?"] | deck => deck end.
Proof.
  simpl; rewrite parseCustomDeck_fixed.
  destruct (parseCustomDeck input); reflexivity.
Qed.

(** X15: every card [parseCustomDeck] returns is non-empty, has no leading
    or trailing whitespace, and contains no comma and no line feed. *)
Theorem parseCustomDeck_entries input v :
  In v (parseCustomDeck input) ->
  v <> [] /\ is_trimmed v = true /\ Forall (fun c => is_deck_separator c = false) v.
Proof. apply parseCustomDeck_entry. Qed.

(** X16: the custom deck App.tsx passes to [createRoom] is kept as parsed by
    [resolveDeck]; only an empty parse becomes the deck ['?']. *)
Theorem resolveDeck_keeps_parsed_deck input :
  resolveDeck Custom (Some (parseCustomDeck input)) =
    match parseCustomDeck input with [] => [js "?"] | deck => deck end.
Proof. apply resolveDeck_parsed. Qed.

(** *** [handleCreateRoom] *)

Lemma suffix_not_placeholder t : t ++ planning_poker_suffix <> room_name_placeholder.
Proof.
  intro E; apply (f_equal (fun l => hd 0 (rev l))) in E.
  rewrite rev_app_distr in E; vm_compute in E; discriminate.
Qed.

Lemma trim_with_suffix t : t <> [] -> is_trimmed t = true -> trim (t ++ planning_poker_suffix) = t ++ planning_poker_suffix.
Proof.
  intros Hn Ht; apply trimmed_trim.
  unfold is_trimmed in *; apply andb_true_iff in Ht as [H1 _].
  destruct t as [|c t']; [congruence|].
  rewrite rev_app_distr; simpl in *; rewrite H1; reflexivity.
Qed.

(** X17: with a session name that is not blank, [handleCreateRoom] creates a
    room and enters it; the room is named [roomName.trim()], or
    [`${trimmedName} - Planning Poker`] when that is empty (so the store's
    placeholder ['Sala sem nome'] only appears when typed), the host is the
    session with its trimmed name and the clock as [joinedAt], and a custom
    deck is the parsed text (['?'] when nothing is left). *)
Theorem handleCreateRoom_creates_room sess values now env s :
  trim (prof_name sess) <> [] ->
  exists s' room,
    handleCreateRoom (Some sess) values now env s =
      Ok (CreateEntered (generateRoomId (env_random36 env) (env_now_id env)), s') /\
    own_get (generateRoomId (env_random36 env) (env_now_id env)) (rooms s') = Some room /\
    r_name room = match trim (fv_roomName values) with
                  | [] => trim (prof_name sess) ++ planning_poker_suffix
                  | t => t
                  end /\
    (r_name room = room_name_placeholder -> trim (fv_roomName values) = room_name_placeholder) /\
    r_hostId room = prof_id sess /\
    r_participants room =
      [(prof_id sess, mkParticipant (Some (prof_id sess)) (Some (trim (prof_name sess)))
                                    (Some (prof_avatarColor sess)) (Some now))] /\
    r_deckValues room = match fv_deckType values with
                        | Custom => match parseCustomDeck (fv_customDeck values) with
                                    | [] => [js "?"]
                                    | deck => deck
                                    end
                        | Fibonacci => PRESET_fibonacci
                        | Numeric => PRESET_numeric
                        end.
Proof.
  intro Hn.
  remember (trim (prof_name sess)) as tn eqn:Tn.
  set (name := match trim (fv_roomName values) with
               | [] => tn ++ planning_poker_suffix | t => t end).
  set (dv := match fv_deckType values with
             | Custom => Some (parseCustomDeck (fv_customDeck values)) | _ => None end).
  set (host := mkProfile (prof_id sess) tn (prof_avatarColor sess) now).
  set (options := mkCreateRoomOptions name (fv_deckType values) dv host).
  destruct (createRoom_new_room options env s) as (id & s' & C & G).
  rewrite createRoom_outcome in C; injection C as <- <-.
  set (id := generateRoomId (env_random36 env) (env_now_id env)) in *.
  assert (Hname : trim name = name).
  { unfold name; destruct (trim (fv_roomName values)) eqn:T.
    - apply trim_with_suffix; [exact Hn|rewrite Tn; apply trim_is_trimmed].
    - rewrite <- T; apply trim_idem. }
  assert (Hne : name <> []).
  { unfold name; destruct (trim (fv_roomName values)); [|discriminate].
    destruct tn; [congruence|discriminate]. }
  exists (mkStore (js_set id (new_room id options (env_now env)) (rooms s)) (proto_revealed s)),
         (new_room id options (env_now env)).
  split.
  { unfold handleCreateRoom; rewrite <- Tn.
    destruct tn as [|c t]; [congruence|reflexivity]. }
  split; [exact G|].
  assert (Hr : r_name (new_room id options (env_now env)) = name).
  { simpl; rewrite Hname; destruct name; [congruence|reflexivity]. }
  split; [exact Hr|].
  split.
  { rewrite Hr; unfold name; destruct (trim (fv_roomName values)) as [|c t] eqn:T;
      [intro E; exfalso; exact (suffix_not_placeholder _ E)|tauto]. }
  split; [reflexivity|]. split; [reflexivity|].
  simpl; unfold dv; destruct (fv_deckType values); [reflexivity|reflexivity|].
  apply resolveDeck_parsed.
Qed.

(** X18: with a blank session name, [handleCreateRoom] sets the session
    error ['Informe um nome antes de criar uma sala.'] and creates no
    room. *)
Theorem handleCreateRoom_blank_name sess values now env s :
  forallb is_ws (prof_name sess) = true ->
  handleCreateRoom (Some sess) values now env s = Ok (CreateNameError name_required_before_create, s).
Proof.
  intro H; apply trim_nil in H.
  unfold handleCreateRoom; rewrite H; reflexivity.
Qed.

(** *** [loadRooms] *)

Lemma map_opt_js_String_strs l : map_opt js_String (map VStr l) = Some l.
Proof. induction l as [|x l IH]; simpl; [reflexivity|rewrite IH; reflexivity]. Qed.

Lemma revealed_not_proto : js "revealed" <> js "__proto__".
Proof. vm_compute; congruence. Qed.

Lemma sanitize_props_shape fields fields' :
  sanitize_props fields = Some fields' ->
  exists l, fields' = js_set (js "revealed")
                        (VBool (truthy (own_get (js "revealed") fields)))
                        (js_set (js "deckValues") (VArr (map VStr l) []) fields).
Proof.
  unfold sanitize_props.
  assert (R : forall d, own_get (js "revealed") (js_set (js "deckValues") d fields) = own_get (js "revealed") fields)
    by (intro d; apply own_get_js_set_other; intro E; apply deckValues_neq_revealed; symmetry; exact E).
  destruct (own_get (js "deckValues") fields) as [[| | | |es aps|]|];
    try (intros [= <-]; exists []; rewrite R; reflexivity).
  destruct (own_has (js "map") aps); [discriminate|].
  destruct (map_opt js_String es) as [l|]; [|discriminate].
  intros [= <-]; exists l; rewrite R; reflexivity.
Qed.

Lemma sanitize_props_idem fields fields' :
  sanitize_props fields = Some fields' -> sanitize_props fields' = Some fields'.
Proof.
  intro S; destruct (sanitize_props_shape _ _ S) as (l & ->).
  set (b := truthy (own_get (js "revealed") fields)).
  set (f1 := js_set (js "deckValues") (VArr (map VStr l) []) fields).
  set (f2 := js_set (js "revealed") (VBool b) f1).
  assert (Gd : own_get (js "deckValues") f2 = Some (VArr (map VStr l) [])).
  { unfold f2, f1; rewrite own_get_js_set_other by exact deckValues_neq_revealed.
    apply own_get_js_set_same, deckValues_not_proto. }
  assert (Gr : own_get (js "revealed") f2 = Some (VBool b))
    by (apply own_get_js_set_same, revealed_not_proto).
  unfold sanitize_props; rewrite Gd; simpl; rewrite map_opt_js_String_strs.
  rewrite (js_set_same_value _ _ _ Gd), Gr; simpl.
  rewrite (js_set_same_value _ _ _ Gr); reflexivity.
Qed.

Lemma sanitize_room_idem v v' : sanitize_room v = Some v' -> sanitize_room v' = Some v'.
Proof.
  destruct v as [| | | |es ps|ps]; simpl; try discriminate;
    destruct (sanitize_props ps) as [ps'|] eqn:S; intros [= <-]; simpl;
    rewrite (sanitize_props_idem _ _ S); reflexivity.
Qed.

Lemma map_opt_idem {A} (f : A -> option A) l l' :
  (forall x y, f x = Some y -> f y = Some y) -> map_opt f l = Some l' -> map_opt f l' = Some l'.
Proof.
  intro Hf; revert l'; induction l as [|x l IH]; intros l' E; simpl in E.
  - injection E as <-; reflexivity.
  - destruct (f x) as [y|] eqn:Fx; [|discriminate].
    destruct (map_opt f l) as [t|] eqn:Ft; [|discriminate].
    injection E as <-; simpl; rewrite (Hf _ _ Fx), (IH t eq_refl); reflexivity.
Qed.

Lemma sanitize_entries_idem ps ps' : sanitize_entries ps = Some ps' -> sanitize_entries ps' = Some ps'.
Proof.
  unfold sanitize_entries; apply map_opt_idem.
  intros [k v] [k' v']; simpl.
  destruct (sanitize_room v) as [w|] eqn:S; [|discriminate]; intros [= <- <-]; simpl.
  rewrite (sanitize_room_idem _ _ S); reflexivity.
Qed.

(** X19: the startup sanitization is idempotent: sanitizing what [loadRooms]
    returned gives it back unchanged. *)
Theorem loadRooms_idempotent isBrowser stored :
  loadRooms true (ItemParsed (loadRooms isBrowser stored)) = loadRooms isBrowser stored.
Proof.
  destruct isBrowser; [|reflexivity].
  destruct stored as [| |parsed]; try reflexivity.
  destruct parsed as [|b|n|str|es ps|ps]; try reflexivity.
  - destruct str; reflexivity.
  - unfold loadRooms; simpl.
    destruct (map_opt sanitize_room es) as [es'|] eqn:E1; [|reflexivity].
    destruct (sanitize_entries ps) as [ps'|] eqn:E2; [|reflexivity]; simpl.
    rewrite (map_opt_idem _ _ _ sanitize_room_idem E1), (sanitize_entries_idem _ _ E2); reflexivity.
  - unfold loadRooms; simpl.
    destruct (sanitize_entries ps) as [ps'|] eqn:E2; [|reflexivity]; simpl.
    rewrite (sanitize_entries_idem _ _ E2); reflexivity.
Qed.

Lemma map_opt_none {A B} (f : A -> option B) l x : In x l -> f x = None -> map_opt f l = None.
Proof.
  induction l as [|y l IH]; simpl; [tauto|].
  intros [<-|H] N; [rewrite N; reflexivity|].
  rewrite (IH H N); destruct (f y); reflexivity.
Qed.

(** X20: when one stored room is [null], a boolean, a number or a string,
    [loadRooms] drops the whole stored table and starts from [{}]. *)
Theorem loadRooms_drops_table_with_primitive_room ps R v :
  own_get R ps = Some v ->
  match v with VObj _ | VArr _ _ => false | _ => true end = true ->
  loadRooms true (ItemParsed (VObj ps)) = empty_object.
Proof.
  intros G Hv.
  assert (N : sanitize_entries ps = None).
  { apply (map_opt_none _ _ (R, v) (own_get_In _ _ _ G)); simpl.
    destruct v; try discriminate; reflexivity. }
  unfold loadRooms; simpl; rewrite N; reflexivity.
Qed.

Lemma map_opt_keys ps ps' : sanitize_entries ps = Some ps' -> map fst ps' = map fst ps.
Proof.
  unfold sanitize_entries; revert ps'; induction ps as [|[k v] t IH]; intros ps' E; simpl in E.
  - injection E as <-; reflexivity.
  - destruct (sanitize_room v) as [w|]; [|discriminate]; simpl in E.
    destruct (map_opt _ t) as [t'|] eqn:T; [|discriminate].
    injection E as <-; simpl; rewrite (IH t' eq_refl); reflexivity.
Qed.

(** X21: a non-empty table returned by [loadRooms] from a stored object has
    the stored room ids in the stored order, and each room stored as an
    object has [revealed] set to [Boolean(revealed)] of the stored room. *)
Theorem loadRooms_keeps_room_ids ps loaded :
  loadRooms true (ItemParsed (VObj ps)) = VObj loaded -> loaded <> [] ->
  map fst loaded = map fst ps /\
  (forall R fields, own_get R ps = Some (VObj fields) ->
     exists fields', own_get R loaded = Some (VObj fields') /\
       own_get (js "revealed") fields' = Some (VBool (truthy (own_get (js "revealed") fields)))).
Proof.
  unfold loadRooms; simpl; intros L Hn.
  destruct (sanitize_entries ps) as [ps'|] eqn:S; injection L as <-; [|congruence].
  split; [exact (map_opt_keys _ _ S)|].
  intros R fields G.
  destruct (sanitize_entries_get _ _ _ _ S G) as (v' & Gv & Sv).
  simpl in Sv; destruct (sanitize_props fields) as [f|] eqn:SP; [|discriminate].
  injection Sv as <-; exists f; split; [exact Gv|].
  destruct (sanitize_props_shape _ _ SP) as (l & ->).
  apply own_get_js_set_same, revealed_not_proto.
Qed.

Lemma map_set_get_same k n m : own_get k (map_set k n m) = Some n.
Proof.
  induction m as [|[k' n'] t IH]; simpl; [rewrite jsstr_eqb_refl; reflexivity|].
  destruct (jsstr_eqb k k') eqn:E; simpl.
  - apply jsstr_eqb_true in E; subst; rewrite jsstr_eqb_refl; reflexivity.
  - rewrite E; exact IH.
Qed.

Lemma map_set_get_other k k' n m : k' <> k -> own_get k' (map_set k n m) = own_get k' m.
Proof.
  intro D; induction m as [|[k0 n0] t IH]; simpl.
  - rewrite (jsstr_eqb_false _ _ D); reflexivity.
  - destruct (jsstr_eqb k k0) eqn:E; simpl.
    + apply jsstr_eqb_true in E; subst; simpl; rewrite (jsstr_eqb_false _ _ D); reflexivity.
    + destruct (jsstr_eqb k' k0); [reflexivity|exact IH].
Qed.

Lemma map_set_keys k n m :
  map fst (map_set k n m) = map fst m \/ map fst (map_set k n m) = map fst m ++ [k].
Proof.
  induction m as [|[k' n'] t IH]; simpl; [right; reflexivity|].
  destruct (jsstr_eqb k k'); simpl; [left; reflexivity|].
  destruct IH as [-> | ->]; [left|right]; reflexivity.
Qed.

Lemma map_set_nodup k n m : NoDup (map fst m) -> NoDup (map fst (map_set k n m)).
Proof.
  intro N; destruct (map_set_keys k n m) as [E|E]; rewrite E; [exact N|].
  destruct (own_get k m) as [x|] eqn:G.
  - (* the key exists: [map_set] keeps the key list *)
    exfalso; revert E; clear N; induction m as [|[k' n'] t IH]; simpl in *; [discriminate|].
    destruct (jsstr_eqb k k') eqn:Ek; simpl.
    + intro H; apply (f_equal (@List.length _)) in H; simpl in H; rewrite length_app in H; simpl in H; lia.
    + intros [=H]; exact (IH G H).
  - apply NoDup_app; [exact N|constructor; [simpl; tauto|constructor]|].
    intros x Hx [<-|[]].
    apply in_map_iff in Hx as ([k' v] & <- & Hin).
    clear E N; induction m as [|[k0 n0] t IH]; simpl in *; [tauto|].
    destruct (jsstr_eqb k' k0) eqn:E; [discriminate|].
    destruct Hin as [[= -> ->]|Hin]; [rewrite jsstr_eqb_refl in E; discriminate|exact (IH G Hin)].
Qed.

Lemma own_get_In_nodup {A} k (v : A) m : NoDup (map fst m) -> (In (k, v) m <-> own_get k m = Some v).
Proof.
  induction m as [|[k' v'] t IH]; simpl; intro N; [split; [tauto|discriminate]|].
  inversion N as [|? ? Nk Nt]; subst.
  destruct (jsstr_eqb k k') eqn:E.
  - apply jsstr_eqb_true in E; subst; split.
    + intros [[= ->]|H]; [reflexivity|].
      exfalso; apply Nk, in_map_iff; exists (k', v); auto.
    + intros [= ->]; left; reflexivity.
  - rewrite <- (IH Nt); split; [intros [[= -> ->]|H]; [rewrite jsstr_eqb_refl in E; discriminate|exact H]|tauto].
Qed.


Lemma occurrences_snoc v pre x :
  occurrences v (pre ++ [x]) =
  (occurrences v pre + match x with Some w => if jsstr_eqb v w then 1 else 0 | None => 0 end)%nat.
Proof.
  unfold occurrences; rewrite filter_app, length_app; destruct x as [w|]; simpl; [|lia].
  destruct (jsstr_eqb v w); reflexivity.
Qed.

Lemma count_vote_inv counts pre x :
  NoDup (map fst counts) -> (forall v, own_get v counts = counts_of pre v) ->
  NoDup (map fst (count_vote counts x)) /\
  (forall v, own_get v (count_vote counts x) = counts_of (pre ++ [x]) v).
Proof.
  intros N G; unfold count_vote, counts_of.
  destruct x as [w|].
  2:{ split; [exact N|]; intro v; rewrite occurrences_snoc, Nat.add_0_r; apply G. }
  destruct (Nat.eqb (List.length w) 0) eqn:Lw.
  - split; [exact N|]; intro v; rewrite G; unfold counts_of; rewrite occurrences_snoc.
    destruct (jsstr_eqb v w) eqn:E; [|rewrite Nat.add_0_r; reflexivity].
    apply jsstr_eqb_true in E; subst; rewrite Lw; reflexivity.
  - split; [apply map_set_nodup, N|]; intro v; rewrite occurrences_snoc.
    destruct (jsstr_eqb v w) eqn:E.
    + apply jsstr_eqb_true in E; subst; rewrite map_set_get_same, Lw.
      unfold map_get_or0; rewrite G; unfold counts_of; rewrite Lw.
      destruct (Nat.eqb (occurrences w pre) 0) eqn:O; simpl.
      * apply Nat.eqb_eq in O; rewrite O; reflexivity.
      * rewrite Nat.add_1_r; simpl; f_equal; lia.
    + apply jsstr_eqb_neq in E.
      rewrite map_set_get_other by exact E; rewrite Nat.add_0_r; apply G.
Qed.

Lemma vote_counts_spec votes :
  NoDup (map fst (vote_counts votes)) /\
  (forall v, own_get v (vote_counts votes) = counts_of votes v).
Proof.
  unfold vote_counts.
  assert (H : forall l c pre, NoDup (map fst c) -> (forall v, own_get v c = counts_of pre v) ->
            NoDup (map fst (fold_left count_vote l c)) /\
            (forall v, own_get v (fold_left count_vote l c) = counts_of (pre ++ l) v)).
  { induction l as [|x l IH]; intros c pre N G; simpl.
    - rewrite app_nil_r; auto.
    - destruct (count_vote_inv c pre x N G) as [N' G'].
      replace (pre ++ x :: l) with ((pre ++ [x]) ++ l) by (rewrite <- app_assoc; reflexivity); exact (IH _ _ N' G'). }
  apply (H votes [] []); [constructor|].
  intro v; unfold counts_of; simpl.
  destruct (Nat.eqb (List.length v) 0); reflexivity.
Qed.

(** *** Insertion by count *)


Lemma insert_by_count_perm e l : Permutation (insert_by_count e l) (e :: l).
Proof.
  induction l as [|x t IH]; simpl; [reflexivity|].
  destruct (snd x <? snd e); [reflexivity|].
  rewrite IH; apply perm_swap.
Qed.

Lemma insert_by_count_sorted e l : Sorted count_desc l -> Sorted count_desc (insert_by_count e l).
Proof.
  induction l as [|x t IH]; simpl; intro S; [repeat constructor|].
  destruct (snd x <? snd e) eqn:C.
  - constructor; [exact S|constructor; unfold count_desc; apply Z.ltb_lt in C; lia].
  - apply Z.ltb_ge in C.
    inversion S as [|? ? St Ht]; subst.
    constructor; [exact (IH St)|].
    destruct t as [|y u]; simpl; [constructor; exact C|].
    destruct (snd y <? snd e); constructor; [exact C|].
    inversion Ht; assumption.
Qed.

Lemma sort_by_count_desc_spec l :
  Permutation (sort_by_count_desc l) l /\ Sorted count_desc (sort_by_count_desc l).
Proof.
  unfold sort_by_count_desc.
  assert (H : forall l acc, Sorted count_desc acc ->
            Permutation (fold_left (fun acc e => insert_by_count e acc) l acc) (rev l ++ acc) /\
            Sorted count_desc (fold_left (fun acc e => insert_by_count e acc) l acc)).
  { induction l0 as [|x t IH]; intros acc S; simpl; [split; [reflexivity|exact S]|].
    destruct (IH _ (insert_by_count_sorted x acc S)) as [P S'].
    split; [|exact S'].
    rewrite P, <- app_assoc; simpl.
    apply Permutation_app_head, insert_by_count_perm. }
  destruct (H l [] (Sorted_nil _)) as [P S]; split; [|exact S].
  rewrite P, app_nil_r; symmetry; apply Permutation_rev.
Qed.

(** X22: the vote summary of [RoomView] lists each non-empty vote value of the
    room once, paired with the number of participants who chose it, and
    orders the pairs by decreasing count. *)
Theorem room_voteSummary_counts room :
  let votes := js_values (r_votes room) in
  NoDup (map fst (room_voteSummary room)) /\
  Sorted (fun a b => snd b <= snd a) (room_voteSummary room) /\
  (forall v n, In (v, n) (room_voteSummary room) <->
     v <> [] /\ (0 < occurrences v votes)%nat /\ n = Z.of_nat (occurrences v votes)).
Proof.
  intro votes; unfold room_voteSummary, voteSummary; fold votes.
  destruct (vote_counts_spec votes) as [N G].
  destruct (sort_by_count_desc_spec (vote_counts votes)) as [P S].
  assert (N' : NoDup (map fst (sort_by_count_desc (vote_counts votes))))
    by (apply (Permutation_NoDup (Permutation_map fst (Permutation_sym P))), N).
  split; [exact N'|split; [exact S|]].
  intros v n; split.
  - intro I; apply (Permutation_in _ P) in I.
    apply (own_get_In_nodup _ _ _ N) in I; rewrite G in I; unfold counts_of in I.
    destruct (Nat.eqb (List.length v) 0) eqn:L; [discriminate|].
    destruct (Nat.eqb (occurrences v votes) 0) eqn:O; [discriminate|].
    injection I as <-; apply Nat.eqb_neq in L, O.
    split; [intros ->; apply L; reflexivity|split; [lia|reflexivity]].
  - intros (Hv & Ho & ->); apply (Permutation_in _ (Permutation_sym P)).
    apply (own_get_In_nodup _ _ _ N); rewrite G; unfold counts_of.
    destruct v as [|c t]; [congruence|]; simpl.
    destruct (Nat.eqb (occurrences (c :: t) votes) 0) eqn:O; [apply Nat.eqb_eq in O; lia|reflexivity].
Qed.

Lemma safe_reachable_run_all ops s :
  forallb safe_operation ops = true -> safe_reachable s -> safe_reachable (run_all ops s).
Proof.
  revert s; induction ops as [|o ops IH]; intros s Ho Hs; simpl in *; [exact Hs|].
  apply andb_true_iff in Ho as [H1 H2].
  apply IH; [exact H2|apply safe_reachable_step; assumption].
Qed.

(** ** Witnesses *)

Lemma reachable_rooms_have_participants_witness :
  reachable demo_state /\
  (exists room, own_get demo_room_id (rooms demo_state) = Some room /\ r_participants room <> []) /\
  (exists s', leaveRoom demo_room_id (js "U1") demo_state = Ok s' /\
              own_get demo_room_id (rooms s') = None).
Proof.
  destruct reachable_rooms_have_participants as [P1 P2].
  pose proof demo_state_reachable as Hs.
  destruct (own_get demo_room_id (rooms demo_state)) as [room|] eqn:G;
    [|vm_compute in G; discriminate].
  split; [exact Hs|split].
  - exists room; split; [reflexivity|exact (P1 demo_state demo_room_id room Hs G)].
  - assert (E : js_delete (js "U1") (r_participants room) = []).
    { vm_compute in G; injection G as <-; vm_compute; reflexivity. }
    destruct (P2 demo_state demo_room_id (js "U1") room G E) as (s' & L & _ & N).
    exists s'; split; [exact L|exact N].
Defined.

Lemma leaveRoom_reassigns_host_witness :
  exists room,
    own_get demo_room_id (rooms two_participant_state) = Some room /\
    r_hostId room = js "U1" /\
    own_has (js "U1") (r_participants room) = true /\
    own_has (js "U2") (r_participants room) = true /\
    js "U2" <> js "U1" /\
    exists s' room',
      leaveRoom demo_room_id (js "U1") two_participant_state = Ok s' /\
      own_get demo_room_id (rooms s') = Some room' /\
      r_hostId room' <> js "U1".
Proof.
  destruct (own_get demo_room_id (rooms two_participant_state)) as [room|] eqn:G;
    [|vm_compute in G; discriminate].
  pose proof G as G0; vm_compute in G0; injection G0 as R0.
  assert (H1 : r_hostId room = js "U1") by (rewrite <- R0; reflexivity).
  assert (H2 : own_has (js "U1") (r_participants room) = true) by (rewrite <- R0; reflexivity).
  assert (H3 : own_has (js "U2") (r_participants room) = true) by (rewrite <- R0; reflexivity).
  assert (H4 : js "U2" <> js "U1") by (vm_compute; congruence).
  exists room; split; [reflexivity|]; split; [exact H1|]; split; [exact H2|]; split; [exact H3|];
    split; [exact H4|].
  destruct (leaveRoom_reassigns_host two_participant_state demo_room_id room (js "U1") (js "U2")
              G H1 H2 H3 H4) as (s' & room' & first & rest & L & G' & _ & _ & Hh & Hn & _).
  exists s', room'; split; [exact L|]; split; [exact G'|]; congruence.
Defined.

Lemma joinRoom_rejoin_idempotent_witness :
  exists room old,
    own_get demo_room_id (rooms demo_state) = Some room /\
    own_get (js "U1") (r_participants room) = Some old /\
    p_joinedAt old = Some 1760000000000 /\
    exists room' s',
      joinRoom demo_room_id rejoin_profile demo_state = Ok (JoinSuccess (LOwn room'), s') /\
      own_get (js "U1") (r_participants room') =
        Some (mkParticipant (Some (js "U1")) (Some (js "Ana Maria")) (Some (js "#1abc9c"))
                            (Some 1760000000000)) /\
      r_votes room' = r_votes room.
Proof.
  destruct (own_get demo_room_id (rooms demo_state)) as [room|] eqn:G;
    [|vm_compute in G; discriminate].
  pose proof G as G0; vm_compute in G0; injection G0 as R0.
  destruct (own_get (js "U1") (r_participants room)) as [old|] eqn:Gp;
    [|rewrite <- R0 in Gp; vm_compute in Gp; discriminate].
  pose proof Gp as Gp0; rewrite <- R0 in Gp0; vm_compute in Gp0; injection Gp0 as O0.
  assert (Hj : p_joinedAt old = Some 1760000000000) by (rewrite <- O0; reflexivity).
  exists room, old; split; [reflexivity|]; split; [exact Gp|]; split; [exact Hj|].
  destruct (joinRoom_rejoin_idempotent demo_state demo_room_id room rejoin_profile old 1760000000000
              G Gp Hj) as (room' & s' & J & _ & _ & Gr & Hv & _).
  exists room', s'; split; [exact J|]; split; [exact Gr|].
  assert (Hown : own_has (prof_id rejoin_profile) (r_votes room) = true) by (rewrite <- R0; reflexivity).
  rewrite (Hv Hown); reflexivity.
Defined.

Lemma custom_deck_resolution_witness :
  (exists id s' room,
     createRoom (mkCreateRoomOptions (js "Sprint 12") Custom (Some (parseCustomDeck sample_deck_input)) demo_host)
                demo_env empty_store = Ok (id, s') /\
     own_get id (rooms s') = Some room /\
     r_deckValues room = map js ["1"; "2"; "3"; "5"]%string) /\
  resolveDeck Custom (Some (parseCustomDeck (js " , "))) = [js "?"].
Proof.
  destruct custom_deck_resolution as [P1 P2].
  split.
  - apply (P1 (mkCreateRoomOptions (js "Sprint 12") Custom (Some (parseCustomDeck sample_deck_input)) demo_host)
              demo_env empty_store); reflexivity.
  - apply P2; vm_compute; repeat constructor.
Defined.

Lemma deck_values_created_and_loaded_witness :
  (exists id s' room,
     createRoom demo_options demo_env empty_store = Ok (id, s') /\
     own_get id (rooms s') = Some room /\ r_deckValues room <> []) /\
  (exists ds,
     own_get (js "deckValues") [(js "deckValues", VArr [] []); (js "revealed", VBool true)]
       = Some (VArr (map VStr ds) []) /\ ds = []).
Proof.
  destruct deck_values_created_and_loaded as [P1 P2].
  split.
  - destruct (P1 demo_options demo_env empty_store) as (id & s' & room & C & G & _ & N & _).
    exists id, s', room; split; [exact C|]; split; [exact G|exact N].
  - destruct (P2 [(js "R", VObj [(js "deckValues", VNum (js "5")); (js "revealed", VBool true)])]
                 [(js "R", VObj [(js "deckValues", VArr [] []); (js "revealed", VBool true)])]
                 (js "R") [(js "deckValues", VNum (js "5")); (js "revealed", VBool true)]
                 [(js "deckValues", VArr [] []); (js "revealed", VBool true)]
                 ltac:(vm_compute; reflexivity) ltac:(vm_compute; reflexivity) ltac:(vm_compute; reflexivity))
      as (ds & D & _ & Hnil).
    exists ds; split; [exact D|apply Hnil].
    intros es aps; vm_compute; discriminate.
Defined.

Lemma safe_runs_keep_room_invariant_witness :
  safe_reachable two_participant_state /\
  Forall (fun kv => room_invariant (snd kv) = true /\ r_participants (snd kv) <> []) (rooms two_participant_state).
Proof.
  assert (H : safe_reachable two_participant_state)
    by (apply safe_reachable_run_all; [vm_compute; reflexivity|apply safe_reachable_empty]).
  split; [exact H|apply (safe_runs_keep_room_invariant two_participant_state H)].
Defined.

Lemma operation_changes_only_its_room_witness :
  exists s',
    run_operation (OpCreateRoom demo_options (mkCreateEnv (js "0.7k2mq9zt1xb") 1760000005000 1760000005000))
      demo_state = Ok s' /\
    demo_room_id <> op_target (OpCreateRoom demo_options (mkCreateEnv (js "0.7k2mq9zt1xb") 1760000005000 1760000005000)) /\
    own_get demo_room_id (rooms s') = own_get demo_room_id (rooms demo_state).
Proof.
  eexists; split; [vm_compute; reflexivity|].
  split; [vm_compute; congruence|].
  apply (operation_changes_only_its_room
           (OpCreateRoom demo_options (mkCreateEnv (js "0.7k2mq9zt1xb") 1760000005000 1760000005000)));
    [vm_compute; reflexivity|vm_compute; congruence].
Defined.

Lemma joinRoom_adds_participant_witness :
  exists room,
    own_get demo_room_id (rooms demo_state) = Some room /\
    safe_id (prof_id second_profile) = true /\
    own_has (prof_id second_profile) (r_participants room) = false /\
    exists room' s',
      joinRoom demo_room_id second_profile demo_state = Ok (JoinSuccess (LOwn room'), s') /\
      r_hostId room' = js "U1".
Proof.
  destruct (own_get demo_room_id (rooms demo_state)) as [room|] eqn:G;
    [|vm_compute in G; discriminate].
  pose proof G as G0; vm_compute in G0; injection G0 as R0.
  assert (H1 : safe_id (prof_id second_profile) = true) by (vm_compute; reflexivity).
  assert (H2 : own_has (prof_id second_profile) (r_participants room) = false) by (rewrite <- R0; reflexivity).
  exists room; split; [reflexivity|]; split; [exact H1|]; split; [exact H2|].
  destruct (joinRoom_adds_participant demo_state demo_room_id room second_profile G H1 H2)
    as (room' & s' & J & _ & _ & _ & Hh & _).
  exists room', s'; split; [exact J|]; rewrite Hh, <- R0; reflexivity.
Defined.

Lemma missing_room_calls_change_nothing_witness :
  safe_id (js "ZZZZ-0000") = true /\ own_has (js "ZZZZ-0000") (rooms demo_state) = false /\
  leaveRoom (js "ZZZZ-0000") (js "U1") demo_state = Ok demo_state /\
  submitVote (js "ZZZZ-0000") (js "U1") (Some (js "5")) demo_state = Ok demo_state.
Proof.
  assert (H1 : safe_id (js "ZZZZ-0000") = true) by (vm_compute; reflexivity).
  assert (H2 : own_has (js "ZZZZ-0000") (rooms demo_state) = false) by (vm_compute; reflexivity).
  destruct (missing_room_calls_change_nothing demo_state (js "ZZZZ-0000") (js "U1") second_profile
              (mkUpdates None None) (Some (js "5")) H1 H2) as (_ & L & _ & _ & V & _).
  split; [exact H1|]; split; [exact H2|]; split; [exact L|exact V].
Defined.

Lemma leaveRoom_other_participant_witness :
  exists room,
    own_get demo_room_id (rooms two_participant_state) = Some room /\
    r_hostId room <> js "U2" /\
    js_delete (js "U2") (r_participants room) <> [] /\
    exists room',
      leaveRoom demo_room_id (js "U2") two_participant_state =
        Ok (mkStore (own_update demo_room_id room' (rooms two_participant_state))
                    (proto_revealed two_participant_state)) /\
      r_hostId room' = js "U1".
Proof.
  destruct (own_get demo_room_id (rooms two_participant_state)) as [room|] eqn:G;
    [|vm_compute in G; discriminate].
  pose proof G as G0; vm_compute in G0; injection G0 as R0.
  assert (H1 : r_hostId room <> js "U2") by (rewrite <- R0; vm_compute; congruence).
  assert (H2 : js_delete (js "U2") (r_participants room) <> []) by (rewrite <- R0; vm_compute; congruence).
  exists room; split; [reflexivity|]; split; [exact H1|]; split; [exact H2|].
  destruct (leaveRoom_other_participant two_participant_state demo_room_id room (js "U2") G H1 H2)
    as (room' & L & _ & _ & Hh & _).
  exists room'; split; [exact L|]; rewrite Hh, <- R0; reflexivity.
Defined.

Lemma leaveRoom_keeps_revealed_witness :
  exists room s' room',
    own_get demo_room_id (rooms (run_all [OpRevealVotes demo_room_id] two_participant_state)) = Some room /\
    leaveRoom demo_room_id (js "U1") (run_all [OpRevealVotes demo_room_id] two_participant_state) = Ok s' /\
    own_get demo_room_id (rooms s') = Some room' /\
    r_revealed room' = true.
Proof.
  destruct (own_get demo_room_id (rooms (run_all [OpRevealVotes demo_room_id] two_participant_state)))
    as [room|] eqn:G; [|vm_compute in G; discriminate].
  pose proof G as G0; vm_compute in G0; injection G0 as R0.
  destruct (leaveRoom demo_room_id (js "U1") (run_all [OpRevealVotes demo_room_id] two_participant_state))
    as [s'|] eqn:L; [|vm_compute in L; discriminate].
  destruct (own_get demo_room_id (rooms s')) as [room'|] eqn:G';
    [|vm_compute in L; injection L as <-; vm_compute in G'; discriminate].
  exists room, s', room'; split; [reflexivity|]; split; [reflexivity|]; split; [exact G'|].
  rewrite (leaveRoom_keeps_revealed _ demo_room_id (js "U1") room s' room' G L G'), <- R0; reflexivity.
Defined.

Lemma submitVote_records_vote_witness :
  exists room,
    own_get demo_room_id (rooms demo_state) = Some room /\
    own_has (js "U1") (r_participants room) = true /\
    js "U1" <> js "__proto__" /\
    exists room',
      submitVote demo_room_id (js "U1") (Some (js "5")) demo_state =
        Ok (mkStore (own_update demo_room_id room' (rooms demo_state)) (proto_revealed demo_state)) /\
      own_get (js "U1") (r_votes room') = Some (Some (js "5")).
Proof.
  destruct (own_get demo_room_id (rooms demo_state)) as [room|] eqn:G;
    [|vm_compute in G; discriminate].
  pose proof G as G0; vm_compute in G0; injection G0 as R0.
  assert (H1 : own_has (js "U1") (r_participants room) = true) by (rewrite <- R0; reflexivity).
  assert (H2 : js "U1" <> js "__proto__") by (vm_compute; congruence).
  exists room; split; [reflexivity|]; split; [exact H1|]; split; [exact H2|].
  destruct (submitVote_records_vote demo_state demo_room_id room (js "U1") (Some (js "5")) G H1 H2)
    as (room' & V & _ & Gv & _).
  exists room'; split; [exact V|exact Gv].
Defined.

Lemma non_participant_calls_change_nothing_witness :
  exists room,
    own_get demo_room_id (rooms demo_state) = Some room /\
    safe_id (js "U2") = true /\
    own_has (js "U2") (r_participants room) = false /\
    submitVote demo_room_id (js "U2") (Some (js "5")) demo_state = Ok demo_state /\
    transferHost demo_room_id (js "U2") demo_state = Ok demo_state.
Proof.
  destruct (own_get demo_room_id (rooms demo_state)) as [room|] eqn:G;
    [|vm_compute in G; discriminate].
  pose proof G as G0; vm_compute in G0; injection G0 as R0.
  assert (H1 : safe_id (js "U2") = true) by (vm_compute; reflexivity).
  assert (H2 : own_has (js "U2") (r_participants room) = false) by (rewrite <- R0; reflexivity).
  destruct (non_participant_calls_change_nothing demo_state demo_room_id room (js "U2")
              (mkUpdates None None) (Some (js "5")) G H1 H2) as (V & T & _).
  exists room; split; [reflexivity|]; split; [exact H1|]; split; [exact H2|]; split; [exact V|exact T].
Defined.


Lemma resetVotes_clears_votes_witness :
  exists room,
    own_get demo_room_id (rooms two_participant_state) = Some room /\
    exists room',
      resetVotes demo_room_id two_participant_state =
        Ok (mkStore (own_update demo_room_id room' (rooms two_participant_state))
                    (proto_revealed two_participant_state)) /\
      map fst (r_votes room') = [js "U1"; js "U2"] /\
      Forall (fun kv => snd kv = None) (r_votes room').
Proof.
  destruct (own_get demo_room_id (rooms two_participant_state)) as [room|] eqn:G;
    [|vm_compute in G; discriminate].
  pose proof G as G0; vm_compute in G0; injection G0 as R0.
  exists room; split; [reflexivity|].
  destruct (resetVotes_clears_votes two_participant_state demo_room_id room G)
    as (room' & E & K & N & _).
  exists room'; split; [exact E|]; split; [rewrite K, <- R0; reflexivity|exact N].
Defined.

Lemma transferHost_to_participant_witness :
  exists room,
    own_get demo_room_id (rooms two_participant_state) = Some room /\
    own_has (js "U2") (r_participants room) = true /\
    transferHost demo_room_id (js "U2") two_participant_state =
      Ok (mkStore (own_update demo_room_id (with_hostId room (js "U2")) (rooms two_participant_state))
                  (proto_revealed two_participant_state)).
Proof.
  destruct (own_get demo_room_id (rooms two_participant_state)) as [room|] eqn:G;
    [|vm_compute in G; discriminate].
  pose proof G as G0; vm_compute in G0; injection G0 as R0.
  assert (H : own_has (js "U2") (r_participants room) = true) by (rewrite <- R0; reflexivity).
  exists room; split; [reflexivity|]; split; [exact H|].
  exact (transferHost_to_participant two_participant_state demo_room_id room (js "U2") G H).
Defined.

Lemma updateParticipantProfile_merges_witness :
  exists room p,
    own_get demo_room_id (rooms demo_state) = Some room /\
    own_get (js "U1") (r_participants room) = Some p /\
    exists room',
      updateParticipantProfile demo_room_id (js "U1") (mkUpdates (Some (Some (js "Ana Maria"))) None) demo_state =
        Ok (mkStore (own_update demo_room_id room' (rooms demo_state)) (proto_revealed demo_state)) /\
      own_get (js "U1") (r_participants room') =
        Some (mkParticipant (Some (js "U1")) (Some (js "Ana Maria")) (Some (js "#3498db"))
                            (Some 1760000000000)).
Proof.
  destruct (own_get demo_room_id (rooms demo_state)) as [room|] eqn:G;
    [|vm_compute in G; discriminate].
  pose proof G as G0; vm_compute in G0; injection G0 as R0.
  destruct (own_get (js "U1") (r_participants room)) as [p|] eqn:Gp;
    [|rewrite <- R0 in Gp; vm_compute in Gp; discriminate].
  pose proof Gp as Gp0; rewrite <- R0 in Gp0; vm_compute in Gp0; injection Gp0 as P0.
  exists room, p; split; [reflexivity|]; split; [exact Gp|].
  destruct (updateParticipantProfile_merges demo_state demo_room_id room (js "U1") p
              (mkUpdates (Some (Some (js "Ana Maria"))) None) G Gp) as (room' & U & Gr & _).
  exists room'; split; [exact U|]; rewrite Gr, <- P0; reflexivity.
Defined.

Lemma parseCustomDeck_entries_witness :
  In (js "3") (parseCustomDeck sample_deck_input) /\
  is_trimmed (js "3") = true /\ Forall (fun c => is_deck_separator c = false) (js "3").
Proof.
  assert (H : In (js "3") (parseCustomDeck sample_deck_input)) by (vm_compute; tauto).
  destruct (parseCustomDeck_entries sample_deck_input (js "3") H) as (_ & T & F).
  split; [exact H|split; [exact T|exact F]].
Defined.

Lemma handleCreateRoom_creates_room_witness :
  trim (prof_name demo_host) <> [] /\
  exists s' room,
    handleCreateRoom (Some demo_host) (mkFormValues (js "   ") Custom (js "1, 2")) 1760000001000 demo_env empty_store =
      Ok (CreateEntered demo_room_id, s') /\
    own_get demo_room_id (rooms s') = Some room /\
    r_name room = js "Ana - Planning Poker" /\
    r_deckValues room = [js "1"; js "2"].
Proof.
  assert (H : trim (prof_name demo_host) <> []) by (vm_compute; congruence).
  split; [exact H|].
  destruct (handleCreateRoom_creates_room demo_host (mkFormValues (js "   ") Custom (js "1, 2"))
              1760000001000 demo_env empty_store H) as (s' & room & C & G & N & _ & _ & _ & D).
  rewrite demo_room_id_generated in C, G.
  exists s', room; split; [exact C|]; split; [exact G|]; split;
    [rewrite N; vm_compute; reflexivity|rewrite D; vm_compute; reflexivity].
Defined.

Lemma handleCreateRoom_blank_name_witness :
  forallb is_ws (prof_name (mkProfile (js "U1") (js "   ") (js "#3498db") 1760000000000)) = true /\
  handleCreateRoom (Some (mkProfile (js "U1") (js "   ") (js "#3498db") 1760000000000))
    (mkFormValues (js "Sprint 12") Fibonacci []) 1760000001000 demo_env demo_state =
    Ok (CreateNameError name_required_before_create, demo_state).
Proof.
  assert (H : forallb is_ws (prof_name (mkProfile (js "U1") (js "   ") (js "#3498db") 1760000000000)) = true)
    by (vm_compute; reflexivity).
  split; [exact H|apply (handleCreateRoom_blank_name _ _ _ _ _ H)].
Defined.

Lemma loadRooms_drops_table_with_primitive_room_witness :
  own_get (js "B") [(js "A", VObj [(js "revealed", VBool true)]); (js "B", VNum (js "0.5"))] = Some (VNum (js "0.5")) /\
  loadRooms true (ItemParsed (VObj [(js "A", VObj [(js "revealed", VBool true)]); (js "B", VNum (js "0.5"))])) =
    empty_object.
Proof.
  assert (H : own_get (js "B") [(js "A", VObj [(js "revealed", VBool true)]); (js "B", VNum (js "0.5"))] = Some (VNum (js "0.5")))
    by (vm_compute; reflexivity).
  split; [exact H|apply (loadRooms_drops_table_with_primitive_room _ _ _ H); reflexivity].
Defined.

Lemma loadRooms_keeps_room_ids_witness :
  exists loaded,
    loadRooms true (ItemParsed (VObj [(js "R", VObj [(js "revealed", VNum (js "0.5"))])])) = VObj loaded /\
    loaded <> [] /\
    map fst loaded = [js "R"] /\
    exists fields', own_get (js "R") loaded = Some (VObj fields') /\
      own_get (js "revealed") fields' = Some (VBool true).
Proof.
  destruct (loadRooms true (ItemParsed (VObj [(js "R", VObj [(js "revealed", VNum (js "0.5"))])])))
    as [| | | | |l] eqn:L; try (vm_compute in L; discriminate).
  pose proof L as L0; vm_compute in L0; injection L0 as L0.
  assert (Hn : l <> []) by (rewrite <- L0; congruence).
  destruct (loadRooms_keeps_room_ids _ l L Hn) as [K F].
  exists l; split; [reflexivity|]; split; [exact Hn|]; split; [exact K|].
  exact (F (js "R") [(js "revealed", VNum (js "0.5"))] eq_refl).
Defined.
